(** * Peptide encoders and evaluation glue of [epitope/mhci_lesson.ipynb]

    A shallow embedding of the notebook's own Python functions
    ([one_hot_encode], [nlf_encode], [blosum_encode], [random_encode],
    [auc_score], [build_predictor], [get_allele_names],
    [evaluate_predictor] and the batch evaluation loop) together with
    the properties stated about them.

    Conventions.
    - A Python [str] is a [string]; [list(seq)] is its list of characters.
    - A pandas frame is a list of labelled columns; [values.flatten()]
      reads it row by row.
    - Exceptions are values of [exn]; a computation that can raise
      returns [res A].  Code that prints, draws random numbers or calls
      into [epitopepredict] / [sklearn] objects runs in [Py], a state and
      error monad over the interpreter state.
    - External tables and library calls ([NLF.csv], [ep.blosum62],
      [ep.get_training_set], [MLPRegressor.fit], ...) are section
      variables. *)

From Stdlib Require Import Ascii String ZArith QArith Qcanon Reals Lra Lia.
From stdpp Require Import base tactics option numbers list sorting strings pretty gmap.

Local Open Scope Z_scope.

(** ** Exceptions and results *)

Inductive exn : Type :=
  | KeyError (key : string)
  | ValueError (msg : string)
  | IndexError (msg : string)
  | LibraryError (msg : string)   (* any other subclass of [Exception] *)
  | KeyboardInterrupt.            (* a [BaseException] outside [Exception] *)

(** [isinstance(e, Exception)] *)
Definition is_Exception (e : exn) : bool :=
  match e with
  | KeyboardInterrupt => false
  | _ => true
  end.

Inductive res (A : Type) : Type :=
  | Return (a : A)
  | Raise (e : exn).
Arguments Return {A} a.
Arguments Raise {A} e.

#[global] Instance res_ret : MRet res := fun A a => Return a.
#[global] Instance res_bind : MBind res := fun A B f m =>
  match m with
  | Return a => f a
  | Raise e => Raise e
  end.
#[global] Instance res_fmap : FMap res := fun A B f m =>
  match m with
  | Return a => Return (f a)
  | Raise e => Raise e
  end.

(** ** Python objects returned by the encoders *)

(** A one-dimensional numpy array, a Python list, or the bound method
    [flatten] of a two-dimensional array that has not been called. *)
Inductive pyobj (V : Type) : Type :=
  | ndarray (data : list V)
  | pylist (items : list V)
  | flatten_method (self : list (list V)).
Arguments ndarray {V} data.
Arguments pylist {V} items.
Arguments flatten_method {V} self.

(** ** Characters and their order *)

Definition ascii_le (a b : ascii) : Prop :=
  (N_of_ascii a <= N_of_ascii b)%N.

#[global] Instance ascii_le_dec a b : Decision (ascii_le a b).
Proof. unfold ascii_le. apply _. Defined.

#[global] Instance ascii_le_total : Total ascii_le.
Proof. intros a b. unfold ascii_le. lia. Qed.

#[global] Instance ascii_le_trans : Transitive ascii_le.
Proof. intros a b c. unfold ascii_le. lia. Qed.

#[global] Instance ascii_le_antisymm : AntiSymm (=) ascii_le.
Proof.
  intros a b Hab Hba. unfold ascii_le in *.
  rewrite <- (ascii_N_embedding a), <- (ascii_N_embedding b).
  f_equal. lia.
Qed.

(** ** Frames *)

(** A frame with a default [RangeIndex]: labelled columns, every column
    holding one cell per row. *)
Definition frame (L V : Type) : Type := list (L * list V).

(** [a.values.flatten()] for a frame of [n] rows: row-major order. *)
Definition frame_row {L V} (d : V) (a : frame L V) (i : nat) : list V :=
  (fun col => nth i (snd col) d) <$> a.

Definition values_flatten {L V} (d : V) (n : nat) (a : frame L V) : list V :=
  mjoin (frame_row d a <$> seq 0 n).

(** [a.sort_index(axis=1)] on character labels. *)
Definition col_le {V} (c1 c2 : ascii * list V) : Prop :=
  ascii_le (fst c1) (fst c2).

#[global] Instance col_le_dec {V} (c1 c2 : ascii * list V) : Decision (col_le c1 c2).
Proof. unfold col_le. apply _. Defined.

Definition sort_index_axis1 {V} (a : frame ascii V) : frame ascii V :=
  merge_sort col_le a.

(** ** One-hot encoding *)

Definition codes : list ascii :=
  ["A"; "C"; "D"; "E"; "F"; "G"; "H"; "I"; "K"; "L";
   "M"; "N"; "P"; "Q"; "R"; "S"; "T"; "V"; "W"; "Y"]%char.

(** [s = pd.DataFrame(list(seq)); s[0]]: the frame built from an empty
    list has no column [0]. *)
Definition column0 (cells : list ascii) : res (list ascii) :=
  match cells with
  | [] => Raise (KeyError "0")
  | _ => Return cells
  end.

Definition b2z (b : bool) : Z := if b then 1 else 0.

(** [Series.str.get_dummies(sep)] on a series of one-character strings:
    the tags are the distinct cells other than [sep], sorted; the column
    of tag [t] marks the rows whose cell is [t]. *)
Definition get_dummies (sep : ascii) (cells : list ascii) : frame ascii Z :=
  let tags :=
    merge_sort ascii_le
      (remove_dups (filter (fun c => c <> sep) cells)) in
  (fun t => (t, (fun c => b2z (bool_decide (c = t))) <$> cells)) <$> tags.

(** [list(set(codes) - set(seq))]; the order in which the set is listed
    does not matter, the columns are sorted by label afterwards. *)
Definition codes_not_in (cells : list ascii) : list ascii :=
  filter (fun c => c ∉ cells) codes.

(** [pd.DataFrame(np.zeros((n, len(o)), dtype=int), columns=o)] *)
Definition zeros_frame (n : nat) (o : list ascii) : frame ascii Z :=
  (fun c => (c, replicate n 0)) <$> o.

Definition one_hot_encode (seq : string) : res (pyobj Z) :=
  let cells := list_ascii_of_string seq in
  let o := codes_not_in cells in
  s0 ← column0 cells;
  let x := zeros_frame (length cells) o in
  let a := get_dummies "," s0 in
  let a := a ++ x in
  let a := sort_index_axis1 a in
  let e := ndarray (values_flatten 0 (length cells) a) in
  mret e.

(** The indicator row of amino acid [c] over the sorted alphabet. *)
Definition indicator (c : ascii) : list Z :=
  (λ t, b2z (bool_decide (c = t))) <$> codes.


(** ** Table look-up encoders *)

(** A reference table read into a frame: one column per amino-acid
    label, every column indexed by the same rows.  [t[i]] selects the
    column labelled [i] and raises [KeyError] when there is none. *)
Definition table (V : Type) : Type := gmap string (list V).

Definition str_of (c : ascii) : string := String c EmptyString.

Definition getitem {V} (t : table V) (i : ascii) : res (list V) :=
  match t !! str_of i with
  | Some col => Return col
  | None => Raise (KeyError (str_of i))
  end.

(** [pd.DataFrame([t[i] for i in seq]).reset_index(drop=True)]: the
    selected columns become the rows of the new frame, in sequence
    order. *)
Definition rows_of_seq {V} (t : table V) (seq : string) : res (list (list V)) :=
  mapM (getitem t) (list_ascii_of_string seq).

(** [nlf_encode]: the last assignment takes the attribute
    [x.values.flatten] and does not call it. *)
Definition nlf_encode {V} (nlf : table V) (seq : string) : res (pyobj V) :=
  x ← rows_of_seq nlf seq;
  let e := flatten_method x in
  mret e.

Definition blosum_encode {V} (blosum : table V) (seq : string) : res (pyobj V) :=
  x ← rows_of_seq blosum seq;
  let e := ndarray (mjoin x) in
  mret e.

(** ** Interpreter state, printing and exceptions *)

(** A value handed to [print]. *)
Inductive printed : Type :=
  | PStr (s : string)
  | PInt (n : Z)
  | PExn (e : exn).

(** The interpreter state: the state [W] of everything behind library
    calls (random generator, predictor objects, files) and the lines
    written to standard output, oldest first. *)
Record state (W : Type) : Type := State {
  world : W;
  stdout : list (list printed)
}.
Arguments State {W} world stdout.
Arguments world {W} s.
Arguments stdout {W} s.

Definition Py (W A : Type) : Type := state W → res A * state W.

#[global] Instance Py_ret {W} : MRet (Py W) := fun A a s => (Return a, s).
#[global] Instance Py_bind {W} : MBind (Py W) := fun A B f m s =>
  match m s with
  | (Return a, s') => f a s'
  | (Raise e, s') => (Raise e, s')
  end.

Definition lift {W A} (r : res A) : Py W A := fun s => (r, s).

Definition print {W} (line : list printed) : Py W () :=
  fun s => (Return (), State (world s) (stdout s ++ [line])).

(** [try: body / except Exception as e: handler(e)] *)
Definition try_except {W A} (body : Py W A) (handler : exn → Py W A) : Py W A :=
  fun s =>
    match body s with
    | (Raise e, s') =>
        if is_Exception e then handler e s' else (Raise e, s')
    | r => r
    end.

(** ** Random encoding *)

(** The module-level names a function body can read. *)
Record globals : Type := Globals { pep : string }.

(** [pep='ALDFEQEMT'], the only assignment to [pep] in the notebook. *)
Definition notebook_globals : globals := {| pep := "ALDFEQEMT" |}.

Section random.
Context {W : Type}.
(** [np.random.randint(high)] *)
Variable randint : Z → Py W Z.

(** [[np.random.randint(20) for i in pep]]: the comprehension runs over
    the global [pep]; the parameter [p] is not read. *)
Definition random_encode (G : globals) (p : string) : Py W (pyobj Z) :=
  rs ← mapM (λ i, randint 20) (list_ascii_of_string (pep G));
  mret (pylist rs).
End random.

(** ** ROC curve and area (the two [sklearn.metrics] calls of [auc_score]) *)

(** A float that is either a number or [nan].  Numbers are exact
    rationals: sums, products and quotients are not rounded as doubles
    are, so only results that doubles represent and compute exactly
    (such as 0, 1/2, 1 and [nan]) are stated about [auc_score] below. *)
Inductive pyfloat : Type :=
  | Fin (q : Qc)
  | NaN.

Definition b2q (b : bool) : Qc := if b then 1%Qc else 0%Qc.

(** Samples ordered by decreasing score.  Samples with equal scores may
    come in any order: only the counts at the end of a run of equal
    scores are read below. *)
Definition score_ge (p1 p2 : bool * Qc) : Prop := (snd p2 ≤ snd p1)%Qc.

#[global] Instance score_ge_dec p1 p2 : Decision (score_ge p1 p2).
Proof. unfold score_ge. apply _. Defined.

(** One operating point: false positives, true positives, threshold. *)
Definition point : Type := Z * Z * Qc.

(** Cumulative counts along the samples sorted by decreasing score; a
    point is emitted at the last sample of every run of equal scores. *)
Fixpoint clf_curve (l : list (bool * Qc)) (fps tps : Z) : list point :=
  match l with
  | [] => []
  | (y, s) :: rest =>
      let tps' := tps + b2z y in
      let fps' := fps + b2z (negb y) in
      match rest with
      | [] => [(fps', tps', s)]
      | (_, s') :: _ =>
          if decide (s = s') then clf_curve rest fps' tps'
          else (fps', tps', s) :: clf_curve rest fps' tps'
      end
  end.

(** [drop_intermediate=True]: an interior point is kept only when the
    second difference of [fps] or of [tps] at it is not zero. *)
Fixpoint drop_after (prev : point) (l : list point) : list point :=
  match l with
  | cur :: ((next :: _) as tl) =>
      let '(f0, t0, _) := prev in
      let '(f1, t1, _) := cur in
      let '(f2, t2, _) := next in
      if decide (f2 - 2 * f1 + f0 = 0 ∧ t2 - 2 * t1 + t0 = 0)
      then drop_after cur tl
      else cur :: drop_after cur tl
  | _ => l
  end.

Definition drop_intermediate (l : list point) : list point :=
  match l with
  | [] => []
  | p :: tl => p :: drop_after p tl
  end.

(** Counts divided by the last count; all [nan] when the last count is
    not positive (the class is absent). *)
Definition rate (counts : list Z) : list pyfloat :=
  let total := List.last counts 0 in
  if decide (total ≤ 0) then (λ _, NaN) <$> counts
  else (λ c, Fin (Qc_of_Z c / Qc_of_Z total)%Qc) <$> counts.

(** A float holding a whole number. *)
Definition is_whole (q : Qc) : bool := bool_decide (Qden (this q) = 1%positive).

(** [check_consistent_length(a, b)]: the message ends with the two
    lengths. *)
Definition inconsistent_length (n m : nat) : exn :=
  ValueError ("Found input variables with inconsistent numbers of samples: ["
              +:+ pretty n +:+ ", " +:+ pretty m +:+ "]").

(** [metrics.roc_curve(y_true, y_score, pos_label)]: the type of the
    target is checked first, then the lengths; with no sample at all the
    cumulative counts cannot be indexed. *)
Definition roc_curve (y_true y_score : list Qc) (pos_label : Qc)
  : res (list pyfloat * list pyfloat * list Qc) :=
  if negb (forallb is_whole y_true) then
    Raise (ValueError "continuous format is not supported")
  else if negb (bool_decide (length y_true = length y_score)) then
    Raise (inconsistent_length (length y_true) (length y_score))
  else
    let labelled := zip ((λ y, bool_decide (y = pos_label)) <$> y_true) y_score in
    match drop_intermediate (clf_curve (merge_sort score_ge labelled) 0 0) with
    | [] => Raise (IndexError "cannot do a non-empty take from an empty axes.")
    | ((_, _, s0) :: _) as pts =>
        let fps := 0 :: ((λ p : point, p.1.1) <$> pts) in
        let tps := 0 :: ((λ p : point, p.1.2) <$> pts) in
        let thresholds := (s0 + 1)%Qc :: ((λ p : point, p.2) <$> pts) in
        Return (rate fps, rate tps, thresholds)
    end.

(** Float arithmetic: [nan] is absorbing and compares false. *)
Definition fop (op : Qc → Qc → Qc) (a b : pyfloat) : pyfloat :=
  match a, b with
  | Fin x, Fin y => Fin (op x y)
  | _, _ => NaN
  end.

Definition flt0 (a : pyfloat) : bool :=
  match a with Fin x => bool_decide (x < 0)%Qc | NaN => false end.

Definition fle0 (a : pyfloat) : bool :=
  match a with Fin x => bool_decide (x ≤ 0)%Qc | NaN => false end.

(** [np.diff(x)] *)
Fixpoint diff (x : list pyfloat) : list pyfloat :=
  match x with
  | a :: ((b :: _) as tl) => fop Qcminus b a :: diff tl
  | _ => []
  end.

(** [np.trapz(y, x)] *)
Fixpoint trapz (y x : list pyfloat) : pyfloat :=
  match x, y with
  | x0 :: ((x1 :: _) as xs), y0 :: ((y1 :: _) as ys) =>
      fop Qcplus
        (fop Qcdiv (fop Qcmult (fop Qcminus x1 x0) (fop Qcplus y0 y1)) (Fin 2%Qc))
        (trapz ys xs)
  | _, _ => Fin 0%Qc
  end.

(** [metrics.auc(x, y)].  The message of the last error ends with a
    rendering of [x], which is left out. *)
Definition auc (x y : list pyfloat) : res pyfloat :=
  if negb (bool_decide (length x = length y)) then
    Raise (inconsistent_length (length x) (length y))
  else if bool_decide (length x < 2)%nat then
    Raise (ValueError
             ("At least 2 points are needed to compute area under curve, but x.shape = "
              +:+ pretty (length x)))
  else
    let dx := diff x in
    if existsb flt0 dx then
      if forallb fle0 dx then
        Return (fop Qcmult (Fin (-1)%Qc) (trapz y x))
      else Raise (ValueError "x is neither increasing nor decreasing")
    else Return (fop Qcmult (Fin 1%Qc) (trapz y x)).

(** ** [auc_score] *)

(** [(v <= cutoff).astype(int)] *)
Definition binarize (cutoff : Qc) (v : list Qc) : list Qc :=
  (λ x, b2q (bool_decide (x ≤ cutoff)%Qc)) <$> v.

Definition auc_score (true_ sc : list Qc) (cutoff : option Qc) : res pyfloat :=
  let '(true_, sc) :=
    match cutoff with
    | Some c => (binarize c true_, binarize c sc)
    | None => (true_, sc)
    end in
  '(fpr, tpr, thresholds) ← roc_curve true_ sc 1%Qc;
  r ← auc fpr tpr;
  mret r.

(** ** Affinity records *)

(** The linearised affinity, [log50k = 1-log(ic50) / log(50000)]. *)
Definition log50k_of_ic50 (ic50 : R) : R := (1 - ln ic50 / ln 50000)%R.

(** A row of the training or evaluation set. *)
Record sample : Type := Sample {
  allele : string;
  peptide : string;
  ic50 : Qc;
  log50k : Qc
}.

(** Distinct values in order of first appearance ([Series.unique()]). *)
Fixpoint unique (l : list string) : list string :=
  match l with
  | [] => []
  | x :: l => x :: filter (λ y, y ≠ x) (unique l)
  end.

Definition count_of (k : string) (l : list string) : nat :=
  length (filter (λ x, x = k) l).

Definition count_ge (p1 p2 : string * nat) : Prop := (snd p2 ≤ snd p1)%nat.

#[global] Instance count_ge_dec p1 p2 : Decision (count_ge p1 p2).
Proof. unfold count_ge. apply _. Defined.

(** [Series.value_counts()]: every distinct value with its number of
    occurrences, most frequent first.  The order among values of equal
    count is that of the sort used here; pandas fixes none, and nothing
    below depends on it. *)
Definition value_counts (l : list string) : list (string * nat) :=
  merge_sort count_ge ((λ k, (k, count_of k l)) <$> unique l).

(** ** Training *)

Section trainer.
Context {W V M : Type}.
(** [ep.get_training_set(allele, length)], the curated data set shipped
    with the package, restricted to an allele and/or a peptide length. *)
Variable get_training_set : option string → option nat → list sample.
(** [MLPRegressor(hidden_layer_sizes=(20), alpha=0.01, max_iter=500,
    activation='relu', solver='lbfgs', random_state=2).fit(X, y)],
    giving the fitted regressor. *)
Variable fit : list (pyobj V) → list Qc → Py W M.

(** [None] stands for the bare [return]. *)
Definition build_predictor (allele : string) (encoder : string → Py W (pyobj V))
  : Py W (option M) :=
  let data := get_training_set (Some allele) None in
  if bool_decide (length data < 200)%nat then mret None
  else
    X ← mapM encoder (peptide <$> data);
    let y := log50k <$> data in
    print [PStr allele; PInt (Z.of_nat (length X))];;
    reg ← fit X y;
    mret (Some reg).

Definition get_allele_names : list string :=
  let d := get_training_set None (Some 9%nat) in
  let a := value_counts (allele <$> d) in
  let a := filter (λ p, 200 < snd p)%nat a in
  fst <$> a.

(** The number of length-9 training rows of allele [a] (its entry in
    [d.allele.value_counts()]). *)
Definition count9 (a : string) : nat :=
  count_of a (allele <$> get_training_set None (Some 9%nat)).
End trainer.

(** ** Evaluation *)

Section evaluator.
Context {W predictor : Type}.
(** [ep.get_evaluation_set(allele, length)] *)
Variable get_evaluation_set : option string → option nat → list sample.
(** [P.predict_peptides(peptides, alleles=allele, cpus=cpus)] *)
Variable predict_peptides : predictor → list string → string → nat → Py W ().
(** [P.get_scores(allele)]: rows of (peptide, score). *)
Variable get_scores : predictor → string → Py W (list (string * Qc)).
(** [P.name] *)
Variable name : predictor → string.

(** [data.merge(x, on='peptide')]: inner join, in the order of [data]. *)
Definition merge_on_peptide (data : list sample) (x : list (string * Qc))
  : list (sample * Qc) :=
  d ← data; (λ r, (d, snd r)) <$> filter (λ r, fst r = peptide d) x.

Definition evaluate_predictor (P : predictor) (allele : string)
  : Py W (pyfloat * list sample) :=
  let data := get_evaluation_set (Some allele) (Some 9%nat) in
  predict_peptides P (peptide <$> data) allele 4%nat;;
  x ← get_scores P allele;
  let x := merge_on_peptide data x in
  auc ← lift (auc_score ((λ r, ic50 (fst r)) <$> x) (snd <$> x) (Some (Qc_of_Z 500)));
  mret (auc, data).

(** A row [(a, auc, len(df))] of the list [m]. *)
Definition row : Type := string * pyfloat * nat.

(** The loop over [test_alleles] for one predictor, started with the
    rows [m] collected so far. *)
Fixpoint evaluate_alleles (P : predictor) (test_alleles : list string) (m : list row)
  : Py W (list row) :=
  match test_alleles with
  | [] => mret m
  | a :: rest =>
      m ← try_except
            ('(auc, df) ← evaluate_predictor P a;
             mret (m ++ [(a, auc, length df)]))
            (λ e, print [PStr a; PExn e];; mret m);
      evaluate_alleles P rest m
  end.

(** The loop over [preds]: one table of rows per predictor, tagged with
    the predictor's name, appended to [comp]. *)
Definition evaluate_all (preds : list predictor) : Py W (list (string * list row)) :=
  let evalset := get_evaluation_set None (Some 9%nat) in
  let test_alleles := unique (allele <$> evalset) in
  mapM (λ P, m ← evaluate_alleles P test_alleles []; mret (name P, m)) preds.
End evaluator.

(** ** Sample instances

    Small concrete tables, generators and data sets on which the
    statements below are exercised. *)

(** A 21-row substitution table in the shape of [ep.blosum62]: the
    twenty residues and a gap row. *)
Definition toy_blosum : table Z :=
  list_to_map ((λ c, (str_of c, ((λ t, if decide (c = t) then 4 else -1) <$> codes) ++ [-4]))
                 <$> codes).

(** A 19-row feature table in the shape of [NLF.csv]. *)
Definition toy_nlf : table Z :=
  list_to_map ((λ c, (str_of c, (λ k, Z.of_N (N_of_ascii c) + k) <$> seqZ 0 19)) <$> codes).

(** A linear congruential generator standing in for [np.random]. *)
Definition lcg_randint (high : Z) : Py Z Z :=
  fun s =>
    (Return (world s mod high),
     State ((world s * 1103515245 + 12345) mod 2147483648) (stdout s)).

(** A training set with 201 nonamers for one allele, 200 for a second
    and three decamers for a third. *)
Definition toy_samples : list sample :=
  replicate 201 (Sample "HLA-A*01:01" "ALDFEQEMT" (Qc_of_Z 120) (Q2Qc (5 # 9)))
  ++ replicate 200 (Sample "HLA-A*02:01" "LLDFEQEMV" (Qc_of_Z 30) (Q2Qc (2 # 3)))
  ++ replicate 3 (Sample "HLA-B*07:02" "APREQEMTAL" (Qc_of_Z 9000) (Q2Qc (1 # 6))).

Definition select (rows : list sample) (a : option string) (len : option nat)
  : list sample :=
  let rows := match a with
              | Some a => filter (λ r, allele r = a) rows
              | None => rows
              end in
  match len with
  | Some n => filter (λ r, String.length (peptide r) = n) rows
  | None => rows
  end.

Definition toy_training_set : option string → option nat → list sample :=
  select toy_samples.

(** A regressor that only remembers how many rows it was fitted on. *)
Definition toy_fit (X : list (pyobj Z)) (y : list Qc) : Py () nat :=
  mret (length X).

Definition toy_encoder (p : string) : Py () (pyobj Z) :=
  lift (blosum_encode toy_blosum p).

(** An evaluation set of two alleles and a predictor that has no model
    for the second one. *)
Definition toy_evalset : list sample :=
  [Sample "HLA-A*01:01" "ALDFEQEMT" (Qc_of_Z 120) (Q2Qc (5 # 9));
   Sample "HLA-A*01:01" "YLDFEQEMW" (Qc_of_Z 7000) (Q2Qc (1 # 5));
   Sample "HLA-C*04:01" "ALDFEQEMT" (Qc_of_Z 40) (Q2Qc (2 # 3))].

Definition toy_evaluation_set : option string → option nat → list sample :=
  select toy_evalset.

Definition toy_predict_peptides (P : string) (peptides : list string)
    (a : string) (cpus : nat) : Py () () :=
  if decide (a = "HLA-C*04:01") then lift (Raise (LibraryError "no model for allele"))
  else mret ().

Definition toy_get_scores (P : string) (a : string) : Py () (list (string * Qc)) :=
  mret [("ALDFEQEMT"%string, Qc_of_Z 300); ("YLDFEQEMW"%string, Qc_of_Z 2500)].

Definition init_state : state () := State () [].

(** ** Further definitions: labels of the one-hot frame *)

(** The column labels of the frame that [one_hot_encode] flattens: the
    tags found by [get_dummies] joined with the alphabet letters absent
    from the sequence, sorted. *)
Definition one_hot_columns (cells : list ascii) : list ascii :=
  merge_sort ascii_le
    (merge_sort ascii_le (remove_dups (filter (λ c, c ≠ ","%char) cells))
     ++ codes_not_in cells).

(** ** Further definitions: the confusion table of [auc_score] *)

(** Position by position, whether the true value and the score are on
    the binding side of the cutoff. *)
Definition confusion (cutoff : Qc) (true_ sc : list Qc) : list (bool * bool) :=
  zip ((λ x, bool_decide (x ≤ cutoff)%Qc) <$> true_)
      ((λ x, bool_decide (x ≤ cutoff)%Qc) <$> sc).

(** The number of positions with true side [y] and score side [s]. *)
Definition cell (y s : bool) (l : list (bool * bool)) : Z :=
  Z.of_nat (length (filter (λ p, p = (y, s)) l)).

(** Positives and negatives among labelled samples. *)
Definition tps_of (l : list (bool * Qc)) : Z :=
  foldr (λ p acc, b2z (fst p) + acc) 0 l.

Definition fps_of (l : list (bool * Qc)) : Z :=
  foldr (λ p acc, b2z (negb (fst p)) + acc) 0 l.

(** ** Further sample instances *)

(** A predictor whose prediction is interrupted for one allele. *)
Definition toy_predict_interrupted (P : string) (peptides : list string)
    (a : string) (cpus : nat) : Py () () :=
  if decide (a = "HLA-C*04:01") then lift (Raise KeyboardInterrupt)
  else mret ().

(** ** Highlighting the best score of a results row *)

(** [s.max()], which skips [nan] and is [nan] when no number is left. *)
Definition series_max (s : list pyfloat) : pyfloat :=
  foldr (λ v acc,
           match v, acc with
           | Fin x, Fin y => Fin (if decide (x ≤ y)%Qc then y else x)
           | Fin x, NaN => Fin x
           | NaN, _ => acc
           end) NaN s.

(** [v == m] on floats. *)
Definition feq (a b : pyfloat) : bool :=
  match a, b with
  | Fin x, Fin y => bool_decide (x = y)
  | _, _ => false
  end.

Definition highlight_max (s : list pyfloat) : list string :=
  let is_max := (λ v, feq v (series_max s)) <$> s in
  (λ v : bool, if v then "background-color: yellow" else "")%string <$> is_max.

(** ** Training every selected allele *)

(** [os.path.join(a, b)] with the POSIX separator. *)
Definition startswith_sep (b : string) : bool :=
  match b with
  | String "/" _ => true
  | _ => false
  end.

Fixpoint endswith_sep (a : string) : bool :=
  match a with
  | EmptyString => false
  | String c EmptyString => bool_decide (c = "/"%char)
  | String _ a => endswith_sep a
  end.

Definition os_path_join (a b : string) : string :=
  if startswith_sep b then b
  else if bool_decide (a = ""%string) || endswith_sep a then (a ++ b)%string
  else (a ++ "/" ++ b)%string.

(** [path = 'models'] *)
Definition path : string := "models".

(** [fname = os.path.join(path, a+'.joblib')] *)
Definition fname (a : string) : string :=
  os_path_join path (a ++ ".joblib").

Section training_loop.
Context {W V M : Type}.
Variable get_training_set : option string → option nat → list sample.
Variable fit : list (pyobj V) → list Qc → Py W M.
(** [joblib.dump(reg, fname, protocol=protocol)] *)
Variable dump : M → string → Z → Py W ().
(** [ep.blosum62] *)
Variable blosum : table V.

(** The loop [for a in al] of the training cell. *)
Fixpoint train_alleles (al : list string) : Py W () :=
  match al with
  | [] => mret ()
  | a :: rest =>
      let fname := fname a in
      reg ← build_predictor get_training_set fit a (λ p, lift (blosum_encode blosum p));
      match reg with
      | Some reg => dump reg fname 2
      | None => mret ()
      end;;
      train_alleles rest
  end.

Definition train_models : Py W () :=
  let al := get_allele_names get_training_set in
  train_alleles al.
End training_loop.

(** A [dump] that always fails. *)
Definition toy_dump_full (reg : nat) (fname : string) (protocol : Z) : Py () () :=
  lift (Raise (LibraryError "No space left on device")).

(** ** The cutoff of [test_predictor] *)

(** [cutoff=.426] in the call [ep.auc_score(y_test,sc,cutoff=.426)]. *)
Definition test_predictor_cutoff : R := 0.426%R.

(** * Properties *)

(** ** One-hot encoding *)

Example one_hot_AC :
  one_hot_encode "CA" =
  Return (ndarray ([0;1;0;0;0;0;0;0;0;0;0;0;0;0;0;0;0;0;0;0] ++
                   [1;0;0;0;0;0;0;0;0;0;0;0;0;0;0;0;0;0;0;0])).
Proof. vm_compute. reflexivity. Qed.

Section frames.
Context {V : Type}.

#[global] Instance col_le_total : Total (@col_le V).
Proof. intros c1 c2. apply (total ascii_le). Qed.

#[global] Instance col_le_trans : Transitive (@col_le V).
Proof. intros c1 c2 c3. apply (transitivity (R:=ascii_le)). Qed.

(** Sorting labelled columns whose contents are a function of the label
    yields the columns of the sorted labels. *)
Lemma sort_index_axis1_fmap (mk : ascii → list V) (l l' : list ascii) :
  l ≡ₚ l' → Sorted ascii_le l' →
  sort_index_axis1 ((λ t, (t, mk t)) <$> l) = (λ t, (t, mk t)) <$> l'.
Proof.
  intros Hp Hs. unfold sort_index_axis1.
  apply (Sorted_unique_strong col_le).
  - intros c1 c2 H1 H2 H12 H21.
    rewrite merge_sort_Permutation in H1.
    apply list_elem_of_fmap in H1 as (t1 & -> & _).
    apply list_elem_of_fmap in H2 as (t2 & -> & _).
    unfold col_le in *; simpl in *.
    by rewrite (anti_symm ascii_le t1 t2).
  - apply Sorted_merge_sort, _.
  - clear Hp. induction Hs as [|t l' Hs IH Hhd]; csimpl; constructor; [done|].
    destruct Hhd; csimpl; by constructor.
  - by rewrite merge_sort_Permutation, Hp.
Qed.

(** Reading row [i] of such a frame. *)
Lemma values_flatten_fmap (d : V) (f : ascii → ascii → V) (cells labels : list ascii) :
  values_flatten d (length cells) ((λ t, (t, (λ c, f c t) <$> cells)) <$> labels)
  = mjoin ((λ c, f c <$> labels) <$> cells).
Proof.
  unfold values_flatten. f_equal.
  apply list_eq; intros i. rewrite !list_lookup_fmap.
  destruct (cells !! i) as [c|] eqn:Hc; simpl.
  - rewrite lookup_seq_lt by eauto using lookup_lt_Some. simpl. f_equal.
    unfold frame_row. rewrite <- list_fmap_compose.
    apply list_fmap_ext; intros j t _; simpl.
    by rewrite nth_lookup, list_lookup_fmap, Hc.
  - rewrite lookup_seq_ge; [done|]. by apply lookup_ge_None.
Qed.
End frames.

Lemma codes_Sorted : Sorted ascii_le codes.
Proof. repeat constructor; unfold ascii_le; vm_compute; discriminate. Qed.

Lemma codes_NoDup : NoDup codes.
Proof. apply (bool_decide_unpack _). vm_compute. exact I. Qed.

Lemma comma_not_code : ","%char ∉ codes.
Proof. apply (bool_decide_unpack _). vm_compute. exact I. Qed.

Lemma join_columns (cells : list ascii) :
Forall (.∈ codes) cells →
get_dummies "," cells ++ zeros_frame (length cells) (codes_not_in cells)
= (λ t, (t, (λ c, b2z (bool_decide (c = t))) <$> cells)) <$>
    (merge_sort ascii_le (remove_dups cells) ++ codes_not_in cells).
Proof.
intros Hcells. unfold get_dummies, zeros_frame. rewrite fmap_app. f_equal.
- f_equal. f_equal. f_equal.
  induction Hcells as [|c cells Hc _ IH]; [done|].
  rewrite filter_cons_True; [by rewrite IH|].
  intros ->. by apply comma_not_code.
- apply list_fmap_ext; intros i t Ht. f_equal.
  apply list_elem_of_lookup_2, list_elem_of_filter in Ht as [Ht _].
  clear Hcells. induction cells as [|c cells IH]; [done|].
  apply not_elem_of_cons in Ht as [Hne Ht]. csimpl.
  rewrite bool_decide_eq_false_2 by done. simpl. f_equal. by apply IH.
Qed.

Lemma labels_Permutation (cells : list ascii) :
Forall (.∈ codes) cells →
merge_sort ascii_le (remove_dups cells) ++ codes_not_in cells ≡ₚ codes.
Proof.
intros Hcells. rewrite merge_sort_Permutation.
apply NoDup_Permutation.
- apply NoDup_app. split_and!.
  + apply NoDup_remove_dups.
  + intros t Ht Ht'. rewrite elem_of_remove_dups in Ht.
    unfold codes_not_in in Ht'. apply list_elem_of_filter in Ht' as [Hn _]. by apply Hn.
  + apply NoDup_filter, codes_NoDup.
- apply codes_NoDup.
- intros t. unfold codes_not_in.
  rewrite elem_of_app, elem_of_remove_dups, list_elem_of_filter.
  rewrite Forall_forall in Hcells.
  split; [intros [?|[_ ?]]; auto|].
  intros ?. destruct (decide (t ∈ cells)); auto.
Qed.

(** On a non-empty peptide over the alphabet the encoder returns the
  indicator rows of its residues, one after the other. *)
Lemma one_hot_encode_indicator (seq : string) :
seq ≠ ""%string →
Forall (.∈ codes) (list_ascii_of_string seq) →
one_hot_encode seq =
Return (ndarray (mjoin (indicator <$> list_ascii_of_string seq))).
Proof.
intros Hne Hcells. unfold one_hot_encode.
destruct (list_ascii_of_string seq) as [|c cells] eqn:Hseq.
{ destruct seq; [done|discriminate]. }
change (column0 (c :: cells)) with (Return (c :: cells)). simpl mbind.
unfold mret, res_ret. do 2 f_equal.
rewrite join_columns by done.
rewrite (sort_index_axis1_fmap _ _ codes)
  by auto using labels_Permutation, codes_Sorted.
apply (values_flatten_fmap 0 (λ c t, b2z (bool_decide (c = t)))).
Qed.

(** The empty string makes [s[0]] fail. *)
Lemma one_hot_encode_empty : one_hot_encode "" = Raise (KeyError "0").
Proof. reflexivity. Qed.

Lemma indicator_length (c : ascii) : length (indicator c) = 20%nat.
Proof. reflexivity. Qed.

Lemma indicator_lookup (c : ascii) (k j : nat) :
  codes !! k = Some c → (j < 20)%nat →
  indicator c !! j = Some (if decide (j = k) then 1 else 0).
Proof.
  intros Hk Hj. unfold indicator. rewrite list_lookup_fmap.
  destruct (lookup_lt_is_Some_2 codes j Hj) as [t Ht]. rewrite Ht. simpl. f_equal.
  destruct (decide (j = k)) as [->|Hjk].
  - rewrite Hk in Ht. injection Ht as ->. by rewrite bool_decide_eq_true_2.
  - rewrite bool_decide_eq_false_2; [done|]. intros ->.
    apply Hjk. by apply (NoDup_lookup codes j k t codes_NoDup).
Qed.

(** C2. For every (non-empty) peptide over the 20-letter alphabet,
    [one_hot_encode] returns a vector of length 20 x peptide length; the
    block of position [i] holds a single 1, at the index [k] of the
    residue at [i] in the sorted alphabet [codes], and 0 elsewhere. *)
Theorem one_hot_encode_one_per_block (seq : string) :
  seq ≠ ""%string →
  Forall (.∈ codes) (list_ascii_of_string seq) →
  ∃ e : list Z,
    one_hot_encode seq = Return (ndarray e) ∧
    length e = (20 * length (list_ascii_of_string seq))%nat ∧
    ∀ (i : nat) (c : ascii),
      list_ascii_of_string seq !! i = Some c →
      ∃ k : nat,
        codes !! k = Some c ∧
        ∀ j : nat, (j < 20)%nat →
          e !! (i * 20 + j)%nat = Some (if decide (j = k) then 1 else 0).
Proof.
  intros Hne Hcells. eexists. split; [by apply one_hot_encode_indicator|].
  assert (Hlen : Forall (λ l : list Z, length l = 20%nat)
                   (indicator <$> list_ascii_of_string seq)).
  { apply Forall_fmap, Forall_true. intros c. apply indicator_length. }
  split.
  - rewrite length_join, (sum_list_fmap_same 20) by done.
    rewrite length_fmap. lia.
  - intros i c Hi.
    rewrite Forall_forall in Hcells.
    destruct (list_elem_of_lookup_1 codes c) as [k Hk].
    { apply Hcells. by eapply list_elem_of_lookup_2. }
    exists k. split; [done|]. intros j Hj.
    apply join_lookup_Some_same_length' with (n := 20%nat); [done..|].
    exists (indicator c). split.
    + by rewrite list_lookup_fmap, Hi.
    + by apply indicator_lookup.
Qed.

(** ** ROC area *)

Example auc_score_ranked :
  auc_score [1; 0; 1; 0]%Qc [Qc_of_Z 9; Qc_of_Z 2; Qc_of_Z 7; Qc_of_Z 8] None
  = Return (Fin (Q2Qc (3 # 4))).
Proof. vm_compute. reflexivity. Qed.

(** ** Table look-up encoders *)

Section tables.
Context {V : Type}.
Implicit Types (t : table V) (cells : list ascii).

Lemma getitem_Some t c col : t !! str_of c = Some col → getitem t c = Return col.
Proof. unfold getitem. by intros ->. Qed.

Lemma mapM_getitem_Return t cells :
  Forall (λ c, is_Some (t !! str_of c)) cells →
  ∃ rows, mapM (getitem t) cells = Return rows ∧
          Forall2 (λ c col, t !! str_of c = Some col) cells rows.
Proof.
  induction 1 as [|c cells [col Hc] _ (rows & IH & Hrows)].
  - by exists [].
  - exists (col :: rows). split; [|by constructor].
    change (mapM (getitem t) (c :: cells))
      with (y ← getitem t c; k ← mapM (getitem t) cells; mret (y :: k)).
    rewrite (getitem_Some _ _ _ Hc), IH. reflexivity.
Qed.

(** C1. Whatever the table and the peptide, [nlf_encode] never returns a
    flat vector: when the look-ups succeed it returns the method
    [flatten] of the positions-by-features frame, not called; otherwise
    it raises the look-up's exception. *)
Theorem nlf_encode_returns_method (nlf : table V) (seq : string) :
  match nlf_encode nlf seq with
  | Return (flatten_method x) => rows_of_seq nlf seq = Return x
  | Return (ndarray _) | Return (pylist _) => False
  | Raise e => rows_of_seq nlf seq = Raise e
  end.
Proof. unfold nlf_encode. by destruct (rows_of_seq nlf seq). Qed.

(** C4. For every peptide over the alphabet, [blosum_encode] returns the
    columns of the table for its residues, concatenated in sequence
    order; with 21 values per column the length is 21 x peptide
    length. *)
Theorem blosum_encode_columns (blosum : table V) (seq : string) :
  Forall (λ c, length <$> blosum !! str_of c = Some 21%nat) codes →
  Forall (.∈ codes) (list_ascii_of_string seq) →
  ∃ cols : list (list V),
    Forall2 (λ c col, blosum !! str_of c = Some col) (list_ascii_of_string seq) cols ∧
    blosum_encode blosum seq = Return (ndarray (mjoin cols)) ∧
    length (mjoin cols) = (21 * length (list_ascii_of_string seq))%nat.
Proof.
  intros Htab Hseq. rewrite Forall_forall in Htab.
  destruct (mapM_getitem_Return blosum (list_ascii_of_string seq)) as (cols & Hm & Hcols).
  { eapply Forall_impl; [exact Hseq|]. intros c Hc; simpl in Hc.
    specialize (Htab c Hc). by destruct (blosum !! str_of c). }
  exists cols. split_and!; [done| |].
  - unfold blosum_encode, rows_of_seq. by rewrite Hm.
  - rewrite length_join, (sum_list_fmap_same 21).
    + apply Forall2_length in Hcols. lia.
    + rewrite Forall_forall in Hseq.
      clear Hm. induction Hcols as [|c col cells cols Hc _ IH]; constructor.
      * specialize (Htab c (Hseq c ltac:(left))). rewrite Hc in Htab. by injection Htab.
      * apply IH. intros c' Hc'. apply Hseq. by right.
Qed.
End tables.

Example nlf_encode_AL :
  nlf_encode toy_nlf "AL" =
  Return (flatten_method [(λ k, 65 + k) <$> seqZ 0 19; (λ k, 76 + k) <$> seqZ 0 19]).
Proof. vm_compute. reflexivity. Qed.

Example blosum_encode_empty : blosum_encode toy_blosum "" = Return (ndarray []).
Proof. reflexivity. Qed.

(** ** The [Py] monad *)

Section py_monad.
Context {W A B : Type}.
Implicit Types (m : Py W A) (f : A → Py W B) (s : state W).

Lemma Py_bind_Return m f s a s' :
  m s = (Return a, s') → (m ≫= f) s = f a s'.
Proof. unfold mbind, Py_bind. by intros ->. Qed.

Lemma Py_bind_Raise m f s e s' :
  m s = (Raise e, s') → (m ≫= f) s = (Raise e, s').
Proof. unfold mbind, Py_bind. by intros ->. Qed.

Lemma mapM_Py_cons (g : A → Py W B) (x : A) (l : list A) :
  mapM g (x :: l) = (y ← g x; k ← mapM g l; mret (y :: k)).
Proof. reflexivity. Qed.
End py_monad.

(** ** Random encoding *)

Lemma length_list_ascii_of_string (s : string) :
  length (list_ascii_of_string s) = String.length s.
Proof. induction s as [|c s IH]; simpl; by f_equal. Qed.

Section random_facts.
Context {W : Type}.
Variable randint : Z → Py W Z.

Lemma mapM_randint_range (cells : list ascii) (s : state W) :
  (∀ s0, ∃ r s1, randint 20 s0 = (Return r, s1) ∧ 0 ≤ r ≤ 19) →
  ∃ rs s', mapM (λ i, randint 20) cells s = (Return rs, s') ∧
           length rs = length cells ∧ Forall (λ r, 0 ≤ r ≤ 19) rs.
Proof.
  intros Hrand. revert s. induction cells as [|c cells IH]; intros s.
  - exists [], s. by repeat split.
  - destruct (Hrand s) as (r & s1 & Hr & Hrange).
    destruct (IH s1) as (rs & s' & Hrs & Hlen & Hall).
    exists (r :: rs), s'. split_and!.
    + rewrite mapM_Py_cons.
      rewrite (Py_bind_Return _ _ _ _ _ Hr).
      by rewrite (Py_bind_Return _ _ _ _ _ Hrs).
    + simpl. by rewrite Hlen.
    + by constructor.
Qed.

(** C8. With [randint(20)] drawing from 0..19, [random_encode] returns a
    list with one draw per character of the global [pep], whatever its
    argument [p]: its length is that of [pep] (9 in the notebook), and
    the result is the same for any two arguments. *)
Theorem random_encode_ignores_p (G : globals) (p : string) (s : state W) :
  (∀ s0, ∃ r s1, randint 20 s0 = (Return r, s1) ∧ 0 ≤ r ≤ 19) →
  (∃ rs s', random_encode randint G p s = (Return (pylist rs), s') ∧
            length rs = String.length (pep G) ∧
            (G = notebook_globals → length rs = 9%nat) ∧
            Forall (λ r, 0 ≤ r ≤ 19) rs) ∧
  (∀ p', random_encode randint G p' s = random_encode randint G p s).
Proof.
  intros Hrand. split; [|done].
  destruct (mapM_randint_range (list_ascii_of_string (pep G)) s Hrand)
    as (rs & s' & Hrs & Hlen & Hall).
  exists rs, s'. split_and!; [|by rewrite Hlen, length_list_ascii_of_string| |done].
  - unfold random_encode. by rewrite (Py_bind_Return _ _ _ _ _ Hrs).
  - intros ->. by rewrite Hlen.
Qed.
End random_facts.

(** ** Linearised affinity *)

Lemma ln_50000_pos : (0 < ln 50000)%R.
Proof. rewrite <- ln_1. apply ln_increasing; lra. Qed.

(** C5. With [log50k = 1 - log(ic50)/log(50000)], the value is 0 at
    [ic50 = 50000] and 1 at [ic50 = 1]. *)
Theorem log50k_of_ic50_endpoints :
  log50k_of_ic50 50000 = 0%R ∧ log50k_of_ic50 1 = 1%R.
Proof.
  pose proof ln_50000_pos as Hpos. unfold log50k_of_ic50. split.
  - field. lra.
  - rewrite ln_1. field. lra.
Qed.

(** ** Training *)

Lemma elem_of_unique (x : string) (l : list string) : x ∈ unique l ↔ x ∈ l.
Proof.
  induction l as [|y l IH]; simpl; [done|].
  rewrite !elem_of_cons, list_elem_of_filter, IH.
  destruct (decide (x = y)) as [->|Hne]; [tauto|].
  split; [intros [?|[_ ?]]; auto|intros [?|?]; auto].
Qed.

Lemma elem_of_value_counts (k : string) (n : nat) (l : list string) :
  (k, n) ∈ value_counts l ↔ k ∈ l ∧ n = count_of k l.
Proof.
  unfold value_counts. rewrite merge_sort_Permutation, list_elem_of_fmap.
  setoid_rewrite elem_of_unique. split.
  - intros (k' & [= -> ->] & Hk). done.
  - intros [Hk ->]. by exists k.
Qed.

Section trainer_facts.
Context {W V M : Type}.
Variable get_training_set : option string → option nat → list sample.
Variable fit : list (pyobj V) → list Qc → Py W M.

Lemma build_predictor_small allele encoder s :
  (length (get_training_set (Some allele) None) < 200)%nat →
  build_predictor get_training_set fit allele encoder s = (Return None, s).
Proof. intros Hlt. unfold build_predictor. by rewrite bool_decide_eq_true_2. Qed.

Lemma build_predictor_large allele encoder s :
  (200 ≤ length (get_training_set (Some allele) None))%nat →
  build_predictor get_training_set fit allele encoder s =
  (X ← mapM encoder (peptide <$> get_training_set (Some allele) None);
   print [PStr allele; PInt (Z.of_nat (length X))];;
   reg ← fit X (log50k <$> get_training_set (Some allele) None);
   mret (Some reg)) s.
Proof. intros Hge. unfold build_predictor. rewrite bool_decide_eq_false_2; [done|lia]. Qed.

Lemma build_predictor_large_not_None allele encoder s s' :
  (200 ≤ length (get_training_set (Some allele) None))%nat →
  build_predictor get_training_set fit allele encoder s ≠ (Return None, s').
Proof.
  intros Hge. rewrite build_predictor_large by done.
  unfold mbind, Py_bind, print.
  destruct (mapM encoder _ s) as [[X|e] s1]; [|done].
  by destruct (fit X _ _) as [[reg|e] s2].
Qed.

Lemma elem_of_get_allele_names a : a ∈ get_allele_names get_training_set ↔ (200 < count9 get_training_set a)%nat.
Proof.
  unfold get_allele_names. rewrite list_elem_of_fmap. split.
  - intros ([k n] & -> & Hin). apply list_elem_of_filter in Hin as [Hn Hin].
    apply elem_of_value_counts in Hin as [_ ->]. done.
  - intros Hn. exists (a, count9 get_training_set a). split; [done|].
    unfold count9 at 1.
    apply list_elem_of_filter. split; [done|].
    apply elem_of_value_counts. split; [|done].
    unfold count9, count_of in Hn.
    destruct (filter (λ x, x = a) (allele <$> get_training_set None (Some 9%nat)))
      as [|x l] eqn:Hf; [simpl in Hn; lia|].
    assert (Hx : x ∈ x :: l) by left. rewrite <- Hf in Hx.
    apply list_elem_of_filter in Hx as [-> ?]. done.
Qed.

(** C3. [build_predictor] returns no model and leaves the state
    untouched when the allele's training set has fewer than 200 rows;
    with 200 rows or more, once every peptide is encoded, it prints the
    allele with the number of rows, fits the regressor on the encodings
    of all peptides against the [log50k] column and returns what [fit]
    gives. *)
Theorem build_predictor_threshold (allele : string)
    (encoder : string → Py W (pyobj V)) (s : state W) :
  let data := get_training_set (Some allele) None in
  ((length data < 200)%nat → build_predictor get_training_set fit allele encoder s = (Return None, s)) ∧
  ((200 ≤ length data)%nat →
   ∀ X s1, mapM encoder (peptide <$> data) s = (Return X, s1) →
     let s2 := State (world s1)
                 (stdout s1 ++ [[PStr allele; PInt (Z.of_nat (length data))]]) in
     length X = length data ∧
     build_predictor get_training_set fit allele encoder s =
       match fit X (log50k <$> data) s2 with
       | (Return reg, s3) => (Return (Some reg), s3)
       | (Raise e, s3) => (Raise e, s3)
       end).
Proof.
  intros data. split; [apply build_predictor_small|].
  intros Hge X s1 HX.
  assert (Hlen : length X = length data).
  { clear Hge. subst data. rewrite <- (length_fmap peptide).
    revert s X s1 HX.
    induction (peptide <$> get_training_set (Some allele) None) as [|p ps IH];
      intros s X s1 HX.
    - by injection HX as <- _.
    - rewrite mapM_Py_cons in HX. unfold mbind, Py_bind in HX.
      destruct (encoder p s) as [[y|e] s2]; [|done].
      destruct (mapM encoder ps s2) as [[k|e] s3] eqn:Hk; [|done].
      injection HX as <- _. simpl. f_equal. by eapply IH. }
  intros s2. split; [done|].
  rewrite build_predictor_large by done. fold data.
  rewrite (Py_bind_Return _ _ _ _ _ HX). rewrite Hlen.
  reflexivity.
Qed.

(** C10. Every name returned by [get_allele_names] has more than 200
    length-9 training rows; when the allele's full training set is at
    least as large as its length-9 part, [build_predictor] does not take
    its no-model return for such a name.  An allele with exactly 200
    rows (of length 9, or in all) is not returned by
    [get_allele_names], although [build_predictor] would not take the
    no-model return for it either. *)
Theorem get_allele_names_above_threshold (a : string)
    (encoder : string → Py W (pyobj V)) (s s' : state W) :
  (count9 get_training_set a ≤ length (get_training_set (Some a) None))%nat →
  (a ∈ get_allele_names get_training_set →
     (200 < count9 get_training_set a)%nat ∧
     build_predictor get_training_set fit a encoder s ≠ (Return None, s')) ∧
  (count9 get_training_set a = 200%nat ∨
   length (get_training_set (Some a) None) = 200%nat →
     (a ∉ get_allele_names get_training_set) ∧
     build_predictor get_training_set fit a encoder s ≠ (Return None, s')).
Proof.
  intros Hsub. rewrite elem_of_get_allele_names. split.
  - intros Hn. split; [done|]. apply build_predictor_large_not_None. lia.
  - intros Hex. split; [lia|]. apply build_predictor_large_not_None. lia.
Qed.
End trainer_facts.

(** ** Thresholding at the cutoff *)

Lemma binarize_Forall2 (c : Qc) (v w : list Qc) :
  Forall2 (λ x y, (x ≤ c)%Qc ↔ (y ≤ c)%Qc) v w → binarize c v = binarize c w.
Proof.
  induction 1 as [|x y v w Hxy _ IH]; [done|].
  unfold binarize in *. csimpl. rewrite IH. do 2 f_equal.
  by apply bool_decide_ext.
Qed.


(** ** Evaluation *)

Section evaluator_facts.
Context {W predictor : Type}.
Variable get_evaluation_set : option string → option nat → list sample.
Variable predict_peptides : predictor → list string → string → nat → Py W ().
Variable get_scores : predictor → string → Py W (list (string * Qc)).

Lemma evaluate_alleles_cons_Raise P a rest m s e s' :
  evaluate_predictor get_evaluation_set predict_peptides get_scores P a s = (Raise e, s') →
  is_Exception e = true →
  evaluate_alleles get_evaluation_set predict_peptides get_scores P (a :: rest) m s =
  evaluate_alleles get_evaluation_set predict_peptides get_scores P rest m
    (State (world s') (stdout s' ++ [[PStr a; PExn e]])).
Proof.
  intros Hev Hexc. simpl.
  apply Py_bind_Return. unfold try_except.
  rewrite (Py_bind_Raise _ _ _ _ _ Hev), Hexc. reflexivity.
Qed.

Lemma evaluate_alleles_prefix P test_alleles m s rows s' :
  evaluate_alleles get_evaluation_set predict_peptides get_scores P test_alleles m s
    = (Return rows, s') →
  m `prefix_of` rows.
Proof.
  revert m s. induction test_alleles as [|a rest IH]; intros m s Hrun.
  - by injection Hrun as -> _.
  - simpl in Hrun. unfold mbind at 1, Py_bind at 1 in Hrun.
    destruct (try_except _ _ s) as [[m1|e1] s1] eqn:Htry; [|done].
    apply IH in Hrun. etrans; [|exact Hrun].
    unfold try_except in Htry.
    unfold mbind, Py_bind, print in Htry.
    destruct (evaluate_predictor _ _ _ P a s) as [[[auc df]|e] s2].
    + injection Htry as <- _. by apply prefix_app_r.
    + destruct (is_Exception e); [|done]. by injection Htry as <- _.
Qed.

(** C6. When evaluating a predictor on allele [a] raises an
    [Exception], the loop prints [(a, e)], adds no row for [a], keeps
    the rows [m] collected so far, and goes on with the remaining
    alleles from the state the failed call left; the rows collected
    before stay a prefix of whatever the loop finally returns. *)
Theorem evaluate_alleles_skips_failure (P : predictor) (a : string)
    (rest : list string) (m : list row) (s s' : state W) (e : exn) :
  evaluate_predictor get_evaluation_set predict_peptides get_scores P a s = (Raise e, s') →
  is_Exception e = true →
  let logged := State (world s') (stdout s' ++ [[PStr a; PExn e]]) in
  evaluate_alleles get_evaluation_set predict_peptides get_scores P (a :: rest) m s =
  evaluate_alleles get_evaluation_set predict_peptides get_scores P rest m logged ∧
  ∀ rows s'',
    evaluate_alleles get_evaluation_set predict_peptides get_scores P (a :: rest) m s
      = (Return rows, s'') →
    m `prefix_of` rows.
Proof.
  intros Hev Hexc logged. split.
  - by apply evaluate_alleles_cons_Raise.
  - intros rows s''. apply evaluate_alleles_prefix.
Qed.

End evaluator_facts.

(** Both scores are on the binding side of the cutoff, so the ranking
    that separates the binder from the non-binder is lost. *)
Example auc_score_cutoff_loses_ranking :
  auc_score [Qc_of_Z 100; Qc_of_Z 1000] [Qc_of_Z 300; Qc_of_Z 400] (Some (Qc_of_Z 500))
  = Return (Fin (Q2Qc (1 # 2))).
Proof. vm_compute. reflexivity. Qed.

(** ** ROC area of a perfectly separated pair *)

#[global] Instance score_ge_total : Total score_ge.
Proof. intros p1 p2. unfold score_ge. destruct (total Qcle p1.2 p2.2); auto. Qed.

#[global] Instance score_ge_trans : Transitive score_ge.
Proof. intros p1 p2 p3 H12 H23. unfold score_ge in *. by etrans. Qed.

Lemma Qc_1_ne_0 : (1 ≠ 0)%Qc.
Proof. intros H. by apply (f_equal this) in H. Qed.

Lemma b2q_inj (b1 b2 : bool) : b2q b1 = b2q b2 → b1 = b2.
Proof.
  by destruct b1, b2.
Qed.

Lemma binarize_b2q (c : Qc) (v : list Qc) :
  binarize c v = b2q <$> ((λ x, bool_decide (x ≤ c)%Qc) <$> v).
Proof. unfold binarize. by rewrite <- list_fmap_compose. Qed.

(** Labels paired with scores, when the scores are the 0/1 labels. *)
Lemma zip_labels (bs : list bool) :
  zip ((λ y, bool_decide (y = 1%Qc)) <$> (b2q <$> bs)) (b2q <$> bs)
  = (λ b, (b, b2q b)) <$> bs.
Proof.
  induction bs as [|b bs IH]; [done|]. csimpl. rewrite IH. do 2 f_equal.
  by destruct b.
Qed.

Lemma labels_Permutation_split (bs : list bool) :
  ∃ p n : nat,
    (λ b, (b, b2q b)) <$> bs ≡ₚ
      replicate p (true, 1%Qc) ++ replicate n (false, 0%Qc) ∧
    (true ∈ bs → (0 < p)%nat) ∧ (false ∈ bs → (0 < n)%nat).
Proof.
  induction bs as [|b bs (p & n & Hperm & Hp & Hn)].
  - exists 0%nat, 0%nat. split_and!; [done|by intros ?%elem_of_nil..].
  - destruct b.
    + exists (S p), n. csimpl. split_and!.
      * by rewrite Hperm.
      * lia.
      * intros [?|?]%elem_of_cons; [done|auto].
    + exists p, (S n). csimpl. split_and!.
      * rewrite Hperm. apply Permutation_middle.
      * intros [?|?]%elem_of_cons; [done|auto].
      * lia.
Qed.

Lemma sorted_labels (bs : list bool) :
  ∃ p n : nat,
    merge_sort score_ge ((λ b, (b, b2q b)) <$> bs) =
      replicate p (true, 1%Qc) ++ replicate n (false, 0%Qc) ∧
    (true ∈ bs → (0 < p)%nat) ∧ (false ∈ bs → (0 < n)%nat).
Proof.
  destruct (labels_Permutation_split bs) as (p & n & Hperm & Hp & Hn).
  exists p, n. split_and!; [|done..].
  apply (Sorted_unique_strong score_ge).
  - intros x1 x2 H1 H2 H12 H21.
    rewrite merge_sort_Permutation in H1.
    apply list_elem_of_fmap in H1 as (b1 & -> & _).
    rewrite <- Hperm in H2.
    apply list_elem_of_fmap in H2 as (b2 & -> & _).
    unfold score_ge in *; simpl in *.
    by rewrite (b2q_inj b1 b2) by by apply (anti_symm Qcle).
  - apply Sorted_merge_sort, _.
  - apply Sorted.StronglySorted_Sorted, StronglySorted_app_2.
    + intros x1 x2 ->%elem_of_replicate_inv ->%elem_of_replicate_inv.
      unfold score_ge; simpl. by apply Z2Qc_inj_le.
    + clear. induction p; csimpl; constructor; [done|].
      apply Forall_forall. intros x ->%elem_of_replicate_inv. unfold score_ge. done.
    + clear. induction n; csimpl; constructor; [done|].
      apply Forall_forall. intros x ->%elem_of_replicate_inv. unfold score_ge. done.
  - by rewrite merge_sort_Permutation.
Qed.

Lemma clf_curve_cons2 (y y' : bool) (s s' : Qc) (rest : list (bool * Qc)) (fps tps : Z) :
  clf_curve ((y, s) :: (y', s') :: rest) fps tps =
  if decide (s = s')
  then clf_curve ((y', s') :: rest) (fps + b2z (negb y)) (tps + b2z y)
  else (fps + b2z (negb y), tps + b2z y, s)
         :: clf_curve ((y', s') :: rest) (fps + b2z (negb y)) (tps + b2z y).
Proof. reflexivity. Qed.

Lemma clf_curve_negatives (n : nat) (fps tps : Z) :
  clf_curve (replicate (S n) (false, 0%Qc)) fps tps
  = [(fps + Z.of_nat (S n), tps + 0, 0%Qc)].
Proof.
  revert fps tps. induction n as [|n IH]; intros fps tps.
  - reflexivity.
  - change (replicate (S (S n)) (false, 0%Qc))
      with ((false, 0%Qc) :: (false, 0%Qc) :: replicate n (false, 0%Qc)).
    rewrite clf_curve_cons2, decide_True by done.
    change ((false, 0%Qc) :: replicate n (false, 0%Qc))
      with (replicate (S n) (false, 0%Qc)).
    rewrite IH. simpl b2z. do 3 f_equal; lia.
Qed.

Lemma clf_curve_separated (p n : nat) (fps tps : Z) :
  clf_curve (replicate (S p) (true, 1%Qc) ++ replicate (S n) (false, 0%Qc)) fps tps
  = [(fps + 0, tps + Z.of_nat (S p), 1%Qc);
     (fps + 0 + Z.of_nat (S n), tps + Z.of_nat (S p) + 0, 0%Qc)].
Proof.
  revert fps tps. induction p as [|p IH]; intros fps tps.
  - change (replicate 1 (true, 1%Qc) ++ replicate (S n) (false, 0%Qc))
      with ((true, 1%Qc) :: (false, 0%Qc) :: replicate n (false, 0%Qc)).
    rewrite clf_curve_cons2, decide_False by apply Qc_1_ne_0.
    change ((false, 0%Qc) :: replicate n (false, 0%Qc))
      with (replicate (S n) (false, 0%Qc)).
    rewrite clf_curve_negatives. reflexivity.
  - change (replicate (S (S p)) (true, 1%Qc) ++ replicate (S n) (false, 0%Qc))
      with ((true, 1%Qc) :: (true, 1%Qc)
              :: (replicate p (true, 1%Qc) ++ replicate (S n) (false, 0%Qc))).
    rewrite clf_curve_cons2, decide_True by done.
    change ((true, 1%Qc) :: (replicate p (true, 1%Qc) ++ replicate (S n) (false, 0%Qc)))
      with (replicate (S p) (true, 1%Qc) ++ replicate (S n) (false, 0%Qc)).
    rewrite IH. cbn [b2z negb].
    replace (fps + 0 + 0) with (fps + 0) by lia.
    replace (tps + 1 + Z.of_nat (S p)) with (tps + Z.of_nat (S (S p))) by lia.
    reflexivity.
Qed.

Lemma Qc_of_Z_div_diag (z : Z) : z ≠ 0 → (Qc_of_Z z / Qc_of_Z z = 1)%Qc.
Proof.
  intros Hz. apply Qcmult_inv_r. rewrite <- Z2Qc_inj_0. by intros ?%Z2Qc_inj.
Qed.

Lemma Qc_of_Z_0_div (q : Qc) : (Qc_of_Z 0 / q = 0)%Qc.
Proof. rewrite Z2Qc_inj_0. apply Qcmult_0_l. Qed.

(** The area under the three-point curve (0,0), (0,1), (1,1). *)
Lemma auc_separated (P N : Z) :
  0 < P → 0 < N →
  auc (rate [0; 0; N]) (rate [0; P; P]) = Return (Fin 1%Qc).
Proof.
  intros HP HN. unfold rate. cbn [List.last].
  rewrite !decide_False by lia. csimpl.
  rewrite !Qc_of_Z_0_div, !Qc_of_Z_div_diag by lia.
  vm_compute. reflexivity.
Qed.

Lemma roc_area_of_labels (bs : list bool) :
  true ∈ bs → false ∈ bs →
  ('(fpr, tpr, thresholds) ← roc_curve (b2q <$> bs) (b2q <$> bs) 1%Qc; auc fpr tpr)
  = Return (Fin 1%Qc).
Proof.
  intros Ht Hf. unfold roc_curve.
  assert (Hwhole : forallb is_whole (b2q <$> bs) = true).
  { clear. induction bs as [|[] bs IH]; [done|exact IH|exact IH]. }
  rewrite Hwhole. cbn [negb].
  rewrite bool_decide_eq_true_2 by done. cbn [negb]. rewrite zip_labels.
  destruct (sorted_labels bs) as ([|p] & [|n] & -> & Hp & Hn);
    [specialize (Hp Ht); lia..| |]; [specialize (Hn Hf); lia|].
  rewrite clf_curve_separated. cbn [drop_intermediate drop_after].
  csimpl. apply auc_separated; lia.
Qed.

(** C7. When the two sequences fall on the same side of the cutoff at
    every position, and both sides occur among the true values,
    [auc_score] returns exactly 1. *)
Theorem auc_score_separated (true_ sc : list Qc) (c : Qc) :
  Forall2 (λ x y, (x ≤ c)%Qc ↔ (y ≤ c)%Qc) true_ sc →
  Exists (λ x, (x ≤ c)%Qc) true_ →
  Exists (λ x, ¬ (x ≤ c)%Qc) true_ →
  auc_score true_ sc (Some c) = Return (Fin 1%Qc).
Proof.
  intros Hsep Hpos Hneg. unfold auc_score.
  rewrite <- (binarize_Forall2 c true_ sc Hsep), binarize_b2q.
  set (bs := (λ x, bool_decide (x ≤ c)%Qc) <$> true_).
  assert (Ht : true ∈ bs).
  { apply Exists_exists in Hpos as (x & Hx & Hle).
    apply list_elem_of_fmap. exists x. by rewrite bool_decide_eq_true_2. }
  assert (Hf : false ∈ bs).
  { apply Exists_exists in Hneg as (x & Hx & Hnle).
    apply list_elem_of_fmap. exists x. by rewrite bool_decide_eq_false_2. }
  pose proof (roc_area_of_labels bs Ht Hf) as Harea.
  destruct (roc_curve (b2q <$> bs) (b2q <$> bs) 1%Qc) as [[[fpr tpr] thr]|e];
    [|done].
  simpl in Harea. simpl. by rewrite Harea.
Qed.

(** ** The statements at concrete inputs *)

Lemma one_hot_encode_one_per_block_ALDFEQEMT :
  ∃ e : list Z,
    one_hot_encode "ALDFEQEMT" = Return (ndarray e) ∧
    length e = (20 * length (list_ascii_of_string "ALDFEQEMT"))%nat ∧
    ∀ (i : nat) (c : ascii),
      list_ascii_of_string "ALDFEQEMT" !! i = Some c →
      ∃ k : nat,
        codes !! k = Some c ∧
        ∀ j : nat, (j < 20)%nat →
          e !! (i * 20 + j)%nat = Some (if decide (j = k) then 1 else 0).
Proof.
  apply (one_hot_encode_one_per_block "ALDFEQEMT").
  - discriminate.
  - apply (bool_decide_unpack _). vm_compute. exact I.
Defined.

Lemma blosum_encode_columns_ALDFEQEMT :
  ∃ cols : list (list Z),
    Forall2 (λ c col, toy_blosum !! str_of c = Some col)
      (list_ascii_of_string "ALDFEQEMT") cols ∧
    blosum_encode toy_blosum "ALDFEQEMT" = Return (ndarray (mjoin cols)) ∧
    length (mjoin cols) = (21 * length (list_ascii_of_string "ALDFEQEMT"))%nat.
Proof.
  apply (blosum_encode_columns toy_blosum "ALDFEQEMT").
  - apply (bool_decide_unpack _). vm_compute. exact I.
  - apply (bool_decide_unpack _). vm_compute. exact I.
Defined.

Lemma lcg_randint_range (s : state Z) :
  ∃ r s1, lcg_randint 20 s = (Return r, s1) ∧ 0 ≤ r ≤ 19.
Proof.
  eexists _, _. split; [reflexivity|].
  pose proof (Z.mod_pos_bound (world s) 20). lia.
Defined.

Lemma random_encode_ignores_p_lcg :
  (∃ rs s', random_encode lcg_randint notebook_globals "ACDEFGHIKLMNPQ" (State 42 [])
              = (Return (pylist rs), s') ∧
            length rs = String.length (pep notebook_globals) ∧
            (notebook_globals = notebook_globals → length rs = 9%nat) ∧
            Forall (λ r, 0 ≤ r ≤ 19) rs) ∧
  (∀ p', random_encode lcg_randint notebook_globals p' (State 42 [])
         = random_encode lcg_randint notebook_globals "ACDEFGHIKLMNPQ" (State 42 [])).
Proof.
  apply (random_encode_ignores_p lcg_randint notebook_globals "ACDEFGHIKLMNPQ" (State 42 [])).
  apply lcg_randint_range.
Defined.

Lemma build_predictor_threshold_toy :
  build_predictor toy_training_set toy_fit "HLA-B*07:02" toy_encoder init_state
    = (Return None, init_state) ∧
  build_predictor toy_training_set toy_fit "HLA-A*02:01" toy_encoder init_state
    = (Return (Some 200%nat), State () [[PStr "HLA-A*02:01"; PInt 200]]).
Proof.
  split.
  - apply (build_predictor_threshold toy_training_set toy_fit "HLA-B*07:02" toy_encoder init_state).
    vm_compute. lia.
  - edestruct (proj2 (build_predictor_threshold toy_training_set toy_fit
                        "HLA-A*02:01" toy_encoder init_state)) as [Hlen Hrun].
    + vm_compute. lia.
    + vm_compute. reflexivity.
    + rewrite Hrun. vm_compute. reflexivity.
Defined.

Lemma get_allele_names_above_threshold_toy :
  ("HLA-A*01:01"%string ∈ get_allele_names toy_training_set →
     (200 < count9 toy_training_set "HLA-A*01:01")%nat ∧
     build_predictor toy_training_set toy_fit "HLA-A*01:01" toy_encoder init_state
       ≠ (Return None, init_state)) ∧
  (count9 toy_training_set "HLA-A*02:01" = 200%nat ∨
   length (toy_training_set (Some "HLA-A*02:01"%string) None) = 200%nat →
     ("HLA-A*02:01"%string ∉ get_allele_names toy_training_set) ∧
     build_predictor toy_training_set toy_fit "HLA-A*02:01" toy_encoder init_state
       ≠ (Return None, init_state)).
Proof.
  split.
  - apply (get_allele_names_above_threshold toy_training_set toy_fit
             "HLA-A*01:01" toy_encoder init_state init_state).
    vm_compute. lia.
  - apply (get_allele_names_above_threshold toy_training_set toy_fit
             "HLA-A*02:01" toy_encoder init_state init_state).
    vm_compute. lia.
Defined.

Example get_allele_names_toy : get_allele_names toy_training_set = ["HLA-A*01:01"%string].
Proof. vm_compute. reflexivity. Qed.

Lemma evaluate_alleles_skips_failure_toy :
  let m := [("HLA-A*01:01"%string, Fin 1%Qc, 2%nat)] in
  let logged :=
    State () [[PStr "HLA-C*04:01"; PExn (LibraryError "no model for allele")]] in
  evaluate_alleles toy_evaluation_set toy_predict_peptides toy_get_scores "basicmhc1"
    ["HLA-C*04:01"; "HLA-A*01:01"]%string m init_state =
  evaluate_alleles toy_evaluation_set toy_predict_peptides toy_get_scores "basicmhc1"
    ["HLA-A*01:01"]%string m logged ∧
  ∀ rows s'',
    evaluate_alleles toy_evaluation_set toy_predict_peptides toy_get_scores "basicmhc1"
      ["HLA-C*04:01"; "HLA-A*01:01"]%string m init_state = (Return rows, s'') →
    m `prefix_of` rows.
Proof.
  intros m logged.
  apply (evaluate_alleles_skips_failure toy_evaluation_set toy_predict_peptides
           toy_get_scores "basicmhc1" "HLA-C*04:01" ["HLA-A*01:01"%string] m init_state init_state
           (LibraryError "no model for allele")).
  - vm_compute. reflexivity.
  - reflexivity.
Defined.

Example evaluate_alleles_toy :
  evaluate_alleles toy_evaluation_set toy_predict_peptides toy_get_scores "basicmhc1"
    ["HLA-C*04:01"; "HLA-A*01:01"]%string [] init_state =
  (Return [("HLA-A*01:01"%string, Fin 1%Qc, 2%nat)],
   State () [[PStr "HLA-C*04:01"; PExn (LibraryError "no model for allele")]]).
Proof. vm_compute. reflexivity. Qed.


Lemma auc_score_separated_toy :
  auc_score [Qc_of_Z 120; Qc_of_Z 7000; Qc_of_Z 45]
            [Qc_of_Z 300; Qc_of_Z 2500; Qc_of_Z 499] (Some (Qc_of_Z 500))
  = Return (Fin 1%Qc).
Proof.
  apply (auc_score_separated [Qc_of_Z 120; Qc_of_Z 7000; Qc_of_Z 45]
           [Qc_of_Z 300; Qc_of_Z 2500; Qc_of_Z 499] (Qc_of_Z 500)).
  - apply (bool_decide_unpack _). vm_compute. exact I.
  - apply (bool_decide_unpack _). vm_compute. exact I.
  - apply (bool_decide_unpack _). vm_compute. exact I.
Defined.

(** * Further properties *)

(** ** One-hot encoding beyond the alphabet *)

Lemma join_columns_any (cells : list ascii) :
  get_dummies "," cells ++ zeros_frame (length cells) (codes_not_in cells)
  = (λ t, (t, (λ c, b2z (bool_decide (c = t))) <$> cells)) <$>
      (merge_sort ascii_le (remove_dups (filter (λ c, c ≠ ","%char) cells))
       ++ codes_not_in cells).
Proof.
  unfold get_dummies, zeros_frame. rewrite fmap_app. f_equal.
  apply list_fmap_ext; intros i t Ht. f_equal.
  apply list_elem_of_lookup_2, list_elem_of_filter in Ht as [Ht _].
  induction cells as [|c cells IH]; [done|].
  apply not_elem_of_cons in Ht as [Hne Ht]. csimpl.
  rewrite bool_decide_eq_false_2 by done. simpl. f_equal. by apply IH.
Qed.

Lemma one_hot_encode_rows (seq : string) :
  seq ≠ ""%string →
  one_hot_encode seq =
  Return (ndarray (mjoin ((λ c, (λ t, b2z (bool_decide (c = t)))
                                  <$> one_hot_columns (list_ascii_of_string seq))
                            <$> list_ascii_of_string seq))).
Proof.
  intros Hne. unfold one_hot_encode.
  destruct (list_ascii_of_string seq) as [|c cells] eqn:Hseq.
  { destruct seq; [done|discriminate]. }
  change (column0 (c :: cells)) with (Return (c :: cells)). simpl mbind.
  unfold mret, res_ret. do 2 f_equal.
  rewrite join_columns_any.
  rewrite (sort_index_axis1_fmap _ _ (one_hot_columns (c :: cells))).
  - apply (values_flatten_fmap 0 (λ c t, b2z (bool_decide (c = t)))).
  - unfold one_hot_columns. symmetry. apply merge_sort_Permutation.
  - apply Sorted_merge_sort, _.
Qed.

Lemma one_hot_columns_Permutation (cells : list ascii) :
  one_hot_columns cells ≡ₚ
  remove_dups (filter (λ c, c ≠ ","%char) cells) ++ codes_not_in cells.
Proof.
  unfold one_hot_columns. etrans; [apply merge_sort_Permutation|].
  apply Permutation_app_tail, merge_sort_Permutation.
Qed.

Lemma elem_of_one_hot_columns (cells : list ascii) (t : ascii) :
  t ∈ one_hot_columns cells ↔ t ∈ codes ∨ (t ∈ cells ∧ t ≠ ","%char).
Proof.
  rewrite one_hot_columns_Permutation. unfold codes_not_in.
  rewrite elem_of_app, elem_of_remove_dups, !list_elem_of_filter. split.
  - intros [[? ?]|[? ?]]; auto.
  - intros [Hc|[? ?]]; [|by left].
    destruct (decide (t ∈ cells)); [|by right]. left. split; [|done].
    intros ->. by apply comma_not_code.
Qed.

Lemma one_hot_columns_NoDup (cells : list ascii) : NoDup (one_hot_columns cells).
Proof.
  rewrite one_hot_columns_Permutation. unfold codes_not_in.
  apply NoDup_app. split_and!.
  - apply NoDup_remove_dups.
  - intros t Ht Ht'. rewrite elem_of_remove_dups in Ht.
    apply list_elem_of_filter in Ht as [_ Ht].
    apply list_elem_of_filter in Ht' as [Hn _]. by apply Hn.
  - apply NoDup_filter, codes_NoDup.
Qed.

(** X1. A non-empty string is never rejected, whatever its symbols: the
    frame has one column per letter of the alphabet and per other
    symbol of the string except the comma, so each block has at least
    20 entries, and more than 20 as soon as the string holds a symbol
    that is neither a letter of the alphabet nor a comma. *)
Theorem one_hot_encode_outside_alphabet (seq : string) :
  seq ≠ ""%string →
  ∃ (labels : list ascii) (e : list Z),
    one_hot_encode seq = Return (ndarray e) ∧
    Sorted ascii_le labels ∧ NoDup labels ∧
    (∀ t, t ∈ labels ↔
          t ∈ codes ∨ (t ∈ list_ascii_of_string seq ∧ t ≠ ","%char)) ∧
    length e = (length (list_ascii_of_string seq) * length labels)%nat ∧
    (20 ≤ length labels)%nat ∧
    (Exists (λ c, (c ∉ codes) ∧ c ≠ ","%char) (list_ascii_of_string seq) →
     (20 < length labels)%nat).
Proof.
  intros Hne. set (cells := list_ascii_of_string seq).
  exists (one_hot_columns cells). eexists.
  split; [by apply one_hot_encode_rows|].
  split; [apply Sorted_merge_sort, _|].
  split; [apply one_hot_columns_NoDup|].
  split; [apply elem_of_one_hot_columns|].
  split_and!.
  - rewrite length_join, (sum_list_fmap_same (length (one_hot_columns cells))).
    + by rewrite length_fmap.
    + apply Forall_fmap, Forall_true. intros c; simpl. by rewrite length_fmap.
  - change 20%nat with (length codes). apply submseteq_length.
    apply NoDup_submseteq; [apply codes_NoDup|].
    intros t Ht. apply elem_of_one_hot_columns. by left.
  - intros (c & Hc & Hout & Hcomma)%Exists_exists.
    change (20 < length (one_hot_columns cells))%nat
      with (length (c :: codes) ≤ length (one_hot_columns cells))%nat.
    apply submseteq_length, NoDup_submseteq.
    + constructor; [done|apply codes_NoDup].
    + intros t [->|Ht]%elem_of_cons; apply elem_of_one_hot_columns; auto.
Qed.

Lemma one_hot_encode_outside_alphabet_AX :
  ∃ (labels : list ascii) (e : list Z),
    one_hot_encode "AX," = Return (ndarray e) ∧
    Sorted ascii_le labels ∧ NoDup labels ∧
    (∀ t, t ∈ labels ↔
          t ∈ codes ∨ (t ∈ list_ascii_of_string "AX," ∧ t ≠ ","%char)) ∧
    length e = (length (list_ascii_of_string "AX,") * length labels)%nat ∧
    (20 ≤ length labels)%nat ∧
    (Exists (λ c, (c ∉ codes) ∧ c ≠ ","%char) (list_ascii_of_string "AX,") →
     (20 < length labels)%nat).
Proof. apply (one_hot_encode_outside_alphabet "AX,"). discriminate. Defined.

Example one_hot_encode_AX_comma :
  one_hot_encode "AX," =
  Return (ndarray ([1;0;0;0;0;0;0;0;0;0;0;0;0;0;0;0;0;0;0;0;0] ++
                   [0;0;0;0;0;0;0;0;0;0;0;0;0;0;0;0;0;0;0;1;0] ++
                   [0;0;0;0;0;0;0;0;0;0;0;0;0;0;0;0;0;0;0;0;0])).
Proof. vm_compute. reflexivity. Qed.

(** X20. For any non-empty string, with [labels] the sorted,
    duplicate-free column labels of the frame (the alphabet and the
    other symbols of the string except the comma) and a vector of
    length positions x labels: the block of a position holding a symbol
    other than the comma has a single 1, at the index of that symbol in
    [labels], and 0 elsewhere; the block of a position holding a comma
    is all 0, since the comma is the separator of [get_dummies] and gets
    no column. *)
Theorem one_hot_encode_blocks_any (seq : string) :
  seq ≠ ""%string →
  ∃ (labels : list ascii) (e : list Z),
    one_hot_encode seq = Return (ndarray e) ∧
    Sorted ascii_le labels ∧ NoDup labels ∧
    (∀ t, t ∈ labels ↔
          t ∈ codes ∨ (t ∈ list_ascii_of_string seq ∧ t ≠ ","%char)) ∧
    length e = (length (list_ascii_of_string seq) * length labels)%nat ∧
    ∀ (i : nat) (c : ascii),
      list_ascii_of_string seq !! i = Some c →
      (c ≠ ","%char →
       ∃ k : nat, labels !! k = Some c ∧
         ∀ j : nat, (j < length labels)%nat →
           e !! (i * length labels + j)%nat = Some (if decide (j = k) then 1 else 0)) ∧
      (c = ","%char →
       ∀ j : nat, (j < length labels)%nat →
         e !! (i * length labels + j)%nat = Some 0).
Proof.
  intros Hne. set (cells := list_ascii_of_string seq).
  set (labels := one_hot_columns cells).
  exists labels. eexists. split; [by apply one_hot_encode_rows|].
  fold cells labels.
  split; [apply Sorted_merge_sort, _|].
  split; [apply one_hot_columns_NoDup|].
  split; [apply elem_of_one_hot_columns|].
  assert (Hlen : Forall (λ l : list Z, length l = length labels)
                   ((λ c, (λ t, b2z (bool_decide (c = t))) <$> labels) <$> cells)).
  { apply Forall_fmap, Forall_true. intros c; simpl. by rewrite length_fmap. }
  split.
  { rewrite length_join, (sum_list_fmap_same (length labels)) by done.
    by rewrite length_fmap. }
  assert (Hblock : ∀ i c j, cells !! i = Some c → (j < length labels)%nat →
            ∃ t, labels !! j = Some t ∧
              mjoin ((λ c, (λ t, b2z (bool_decide (c = t))) <$> labels) <$> cells)
                !! (i * length labels + j)%nat = Some (b2z (bool_decide (c = t)))).
  { intros i c j Hi Hj. destruct (lookup_lt_is_Some_2 labels j Hj) as [t Ht].
    exists t. split; [done|].
    apply join_lookup_Some_same_length' with (n := length labels); [done..|].
    eexists. split; [by rewrite list_lookup_fmap, Hi|].
    by rewrite list_lookup_fmap, Ht. }
  intros i c Hi. split.
  - intros Hc.
    destruct (list_elem_of_lookup_1 labels c) as [k Hk].
    { apply elem_of_one_hot_columns. right. split; [|done].
      by eapply list_elem_of_lookup_2. }
    exists k. split; [done|]. intros j Hj.
    destruct (Hblock i c j Hi Hj) as (t & Ht & ->). f_equal.
    destruct (decide (j = k)) as [->|Hjk].
    + rewrite Hk in Ht. injection Ht as <-. by rewrite bool_decide_eq_true_2.
    + rewrite bool_decide_eq_false_2; [done|]. intros <-.
      apply Hjk. by apply (NoDup_lookup labels j k c (one_hot_columns_NoDup cells)).
  - intros -> j Hj.
    destruct (Hblock i ","%char j Hi Hj) as (t & Ht & ->). f_equal.
    rewrite bool_decide_eq_false_2; [done|]. intros <-.
    apply list_elem_of_lookup_2, elem_of_one_hot_columns in Ht as [Ht|[_ Ht]]; [|done].
    by apply comma_not_code.
Qed.

Lemma one_hot_encode_blocks_any_AX :
  ∃ (labels : list ascii) (e : list Z),
    one_hot_encode "AX," = Return (ndarray e) ∧
    Sorted ascii_le labels ∧ NoDup labels ∧
    (∀ t, t ∈ labels ↔
          t ∈ codes ∨ (t ∈ list_ascii_of_string "AX," ∧ t ≠ ","%char)) ∧
    length e = (length (list_ascii_of_string "AX,") * length labels)%nat ∧
    ∀ (i : nat) (c : ascii),
      list_ascii_of_string "AX," !! i = Some c →
      (c ≠ ","%char →
       ∃ k : nat, labels !! k = Some c ∧
         ∀ j : nat, (j < length labels)%nat →
           e !! (i * length labels + j)%nat = Some (if decide (j = k) then 1 else 0)) ∧
      (c = ","%char →
       ∀ j : nat, (j < length labels)%nat →
         e !! (i * length labels + j)%nat = Some 0).
Proof. apply (one_hot_encode_blocks_any "AX,"). discriminate. Defined.

(** ** One-hot encoding is position-wise and can be read back *)

Lemma list_ascii_of_string_app (s1 s2 : string) :
  list_ascii_of_string (s1 ++ s2) = list_ascii_of_string s1 ++ list_ascii_of_string s2.
Proof. induction s1 as [|c s1 IH]; simpl; by f_equal. Qed.

Lemma list_ascii_of_string_inj (s1 s2 : string) :
  list_ascii_of_string s1 = list_ascii_of_string s2 → s1 = s2.
Proof.
  intros H. rewrite <- (string_of_list_ascii_of_string s1),
    <- (string_of_list_ascii_of_string s2). by rewrite H.
Qed.

Lemma indicator_inj (c1 c2 : ascii) :
  c1 ∈ codes → indicator c1 = indicator c2 → c1 = c2.
Proof.
  intros [k Hk]%list_elem_of_lookup_1 Heq.
  assert (Hlt : (k < 20)%nat) by (by apply lookup_lt_Some in Hk).
  pose proof (indicator_lookup c1 k k Hk Hlt) as H1.
  rewrite Heq in H1. unfold indicator in H1.
  rewrite list_lookup_fmap, Hk in H1. simpl in H1.
  rewrite decide_True in H1 by done.
  destruct (decide (c2 = c1)) as [->|Hne]; [done|].
  by rewrite bool_decide_eq_false_2 in H1.
Qed.

Lemma join_indicator_inj (l1 l2 : list ascii) :
  Forall (.∈ codes) l1 →
  mjoin (indicator <$> l1) = mjoin (indicator <$> l2) → l1 = l2.
Proof.
  intros Hl1. revert l2. induction Hl1 as [|c1 l1 Hc1 _ IH]; intros [|c2 l2] Heq.
  - done.
  - by apply (f_equal length) in Heq.
  - by apply (f_equal length) in Heq.
  - change (indicator c1 ++ mjoin (indicator <$> l1)
            = indicator c2 ++ mjoin (indicator <$> l2)) in Heq.
    apply app_inj_1 in Heq as [Hc Hl]; [|done].
    f_equal; [by apply indicator_inj|by apply IH].
Qed.

(** X2. Two different non-empty peptides over the alphabet never get the
    same one-hot vector: the peptide can be read back from its
    encoding. *)
Theorem one_hot_encode_inj (seq1 seq2 : string) :
  seq1 ≠ ""%string → seq2 ≠ ""%string →
  Forall (.∈ codes) (list_ascii_of_string seq1) →
  Forall (.∈ codes) (list_ascii_of_string seq2) →
  seq1 ≠ seq2 →
  one_hot_encode seq1 ≠ one_hot_encode seq2.
Proof.
  intros Hne1 Hne2 H1 H2 Hdiff.
  rewrite !one_hot_encode_indicator by done. intros [= Heq].
  by apply Hdiff, list_ascii_of_string_inj, join_indicator_inj.
Qed.

Lemma one_hot_encode_inj_AL_LA : one_hot_encode "AL" ≠ one_hot_encode "LA".
Proof.
  apply (one_hot_encode_inj "AL" "LA"); try discriminate;
    apply (bool_decide_unpack _); vm_compute; exact I.
Defined.

(** X3. The one-hot encoding is position-wise: the vector of a
    concatenation of two non-empty peptides over the alphabet is the
    vector of the first followed by the vector of the second. *)
Theorem one_hot_encode_app (seq1 seq2 : string) :
  seq1 ≠ ""%string → seq2 ≠ ""%string →
  Forall (.∈ codes) (list_ascii_of_string seq1) →
  Forall (.∈ codes) (list_ascii_of_string seq2) →
  ∃ e1 e2 : list Z,
    one_hot_encode seq1 = Return (ndarray e1) ∧
    one_hot_encode seq2 = Return (ndarray e2) ∧
    one_hot_encode (seq1 ++ seq2) = Return (ndarray (e1 ++ e2)).
Proof.
  intros Hne1 Hne2 H1 H2. eexists _, _.
  split; [by apply one_hot_encode_indicator|].
  split; [by apply one_hot_encode_indicator|].
  rewrite one_hot_encode_indicator.
  - by rewrite list_ascii_of_string_app, fmap_app, join_app.
  - by destruct seq1.
  - rewrite list_ascii_of_string_app. by apply Forall_app.
Qed.

Lemma one_hot_encode_app_ALD_FEQ :
  ∃ e1 e2 : list Z,
    one_hot_encode "ALD" = Return (ndarray e1) ∧
    one_hot_encode "FEQ" = Return (ndarray e2) ∧
    one_hot_encode ("ALD" ++ "FEQ") = Return (ndarray (e1 ++ e2)).
Proof.
  apply (one_hot_encode_app "ALD" "FEQ"); try discriminate;
    apply (bool_decide_unpack _); vm_compute; exact I.
Defined.

(** ** Table look-up encoders: missing symbols and concatenation *)

Section tables_more.
Context {V : Type}.
Implicit Types (t : table V) (cells : list ascii).

Lemma mapM_res_app {A B} (f : A → res B) (l1 l2 : list A) :
  mapM f (l1 ++ l2) = (k1 ← mapM f l1; k2 ← mapM f l2; mret (k1 ++ k2)).
Proof.
  induction l1 as [|x l1 IH].
  - simpl. by destruct (mapM f l2).
  - change (mapM f ((x :: l1) ++ l2))
      with (y ← f x; k ← mapM f (l1 ++ l2); mret (y :: k)).
    change (mapM f (x :: l1)) with (y ← f x; k ← mapM f l1; mret (y :: k)).
    rewrite IH. destruct (f x) as [y|e]; [|done]. simpl.
    destruct (mapM f l1) as [k1|e]; [|done]. simpl.
    by destruct (mapM f l2).
Qed.

Lemma getitem_None t c : t !! str_of c = None → getitem t c = Raise (KeyError (str_of c)).
Proof. unfold getitem. by intros ->. Qed.

Lemma rows_of_seq_missing t pre c post :
  Forall (λ a, is_Some (t !! str_of a)) pre →
  t !! str_of c = None →
  mapM (getitem t) (pre ++ c :: post) = Raise (KeyError (str_of c)).
Proof.
  intros Hpre Hc. rewrite mapM_res_app.
  destruct (mapM_getitem_Return t pre Hpre) as (rows & -> & _). simpl.
  change (mapM (getitem t) (c :: post))
    with (y ← getitem t c; k ← mapM (getitem t) post; mret (y :: k)).
  by rewrite (getitem_None _ _ Hc).
Qed.

(** X4. When a symbol of the sequence has no column in the table, both
    table encoders raise [KeyError] for the first such symbol. *)
Theorem table_encoders_KeyError (t : table V) (seq : string)
    (pre post : list ascii) (c : ascii) :
  list_ascii_of_string seq = pre ++ c :: post →
  Forall (λ a, is_Some (t !! str_of a)) pre →
  t !! str_of c = None →
  blosum_encode t seq = Raise (KeyError (str_of c)) ∧
  nlf_encode t seq = Raise (KeyError (str_of c)).
Proof.
  intros Hseq Hpre Hc. unfold blosum_encode, nlf_encode, rows_of_seq.
  by rewrite Hseq, rows_of_seq_missing.
Qed.

(** X5. The table encoding is position-wise: when two sequences are
    encoded, their concatenation is encoded by the first vector followed
    by the second. *)
Theorem blosum_encode_app (blosum : table V) (seq1 seq2 : string) (e1 e2 : list V) :
  blosum_encode blosum seq1 = Return (ndarray e1) →
  blosum_encode blosum seq2 = Return (ndarray e2) →
  blosum_encode blosum (seq1 ++ seq2) = Return (ndarray (e1 ++ e2)).
Proof.
  unfold blosum_encode, rows_of_seq.
  rewrite list_ascii_of_string_app, mapM_res_app.
  destruct (mapM (getitem blosum) (list_ascii_of_string seq1)) as [x1|]; [|done].
  destruct (mapM (getitem blosum) (list_ascii_of_string seq2)) as [x2|]; [|done].
  simpl. intros [= <-] [= <-]. by rewrite join_app.
Qed.
End tables_more.

Lemma table_encoders_KeyError_toy :
  blosum_encode toy_blosum "ALXDB" = Raise (KeyError "X") ∧
  nlf_encode toy_nlf "ALXDB" = Raise (KeyError "X").
Proof.
  split.
  - apply (table_encoders_KeyError toy_blosum "ALXDB" ["A"; "L"]%char ["D"; "B"]%char "X").
    + reflexivity.
    + apply (bool_decide_unpack _). vm_compute. exact I.
    + vm_compute. reflexivity.
  - apply (table_encoders_KeyError toy_nlf "ALXDB" ["A"; "L"]%char ["D"; "B"]%char "X").
    + reflexivity.
    + apply (bool_decide_unpack _). vm_compute. exact I.
    + vm_compute. reflexivity.
Defined.

Lemma blosum_encode_app_toy :
  blosum_encode toy_blosum ("A" ++ "L") =
  Return (ndarray (((λ t, if decide ("A"%char = t) then 4 else -1) <$> codes) ++ [-4]
                   ++ ((λ t, if decide ("L"%char = t) then 4 else -1) <$> codes) ++ [-4])).
Proof.
  rewrite (app_assoc _ [-4]).
  apply (blosum_encode_app toy_blosum "A" "L"); vm_compute; reflexivity.
Defined.

(** ** ROC area with a cutoff: the general case *)

Lemma tps_of_app l k : tps_of (l ++ k) = tps_of l + tps_of k.
Proof. induction l as [|p l IH]; simpl; [done|]. unfold tps_of in *; simpl. lia. Qed.

Lemma fps_of_app l k : fps_of (l ++ k) = fps_of l + fps_of k.
Proof. induction l as [|p l IH]; simpl; [done|]. unfold fps_of in *; simpl. lia. Qed.

Lemma tps_of_Permutation l k : l ≡ₚ k → tps_of l = tps_of k.
Proof. induction 1; unfold tps_of in *; simpl; lia. Qed.

Lemma fps_of_Permutation l k : l ≡ₚ k → fps_of l = fps_of k.
Proof. induction 1; unfold fps_of in *; simpl; lia. Qed.

Lemma tps_of_nonneg l : 0 ≤ tps_of l.
Proof. induction l as [|[[] s] l IH]; unfold tps_of in *; simpl; lia. Qed.

Lemma fps_of_nonneg l : 0 ≤ fps_of l.
Proof. induction l as [|[[] s] l IH]; unfold fps_of in *; simpl; lia. Qed.

(** A run of equal scores contributes one point. *)
Lemma clf_curve_run (s : Qc) (run rest : list (bool * Qc)) (fps tps : Z) :
  run ≠ [] →
  Forall (λ p, p.2 = s) run →
  match rest with [] => True | p :: _ => p.2 ≠ s end →
  clf_curve (run ++ rest) fps tps =
  (fps + fps_of run, tps + tps_of run, s)
    :: clf_curve rest (fps + fps_of run) (tps + tps_of run).
Proof.
  intros Hne Hrun Hrest. revert fps tps.
  induction Hrun as [|[y s0] run Hs Hrun IH]; [done|]; intros fps tps.
  simpl in Hs. subst s0. destruct run as [|[y' s'] run].
  - unfold fps_of, tps_of. simpl. rewrite !Z.add_0_r.
    destruct rest as [|[y' s'] rest]; [done|].
    simpl in Hrest. by rewrite decide_False by done.
  - assert (s' = s) as -> by (by inv Hrun).
    change (((y, s) :: (y', s) :: run) ++ rest)
      with ((y, s) :: (y', s) :: (run ++ rest)).
    rewrite clf_curve_cons2, decide_True by done.
    change ((y', s) :: run ++ rest) with (((y', s) :: run) ++ rest).
    rewrite IH by done.
    unfold fps_of, tps_of. simpl.
    rewrite !Z.add_assoc. reflexivity.
Qed.

(** Sorted 0/1 scores: the ones come first. *)
Lemma sorted_binary_split (l : list (bool * Qc)) :
  StronglySorted score_ge l →
  Forall (λ p, p.2 = 1%Qc ∨ p.2 = 0%Qc) l →
  l = filter (λ p, p.2 = 1%Qc) l ++ filter (λ p, p.2 = 0%Qc) l.
Proof.
  induction 1 as [|x l Hsorted IH Hx]; intros Hbin; [done|].
  apply Forall_cons in Hbin as [[Hx1|Hx0] Hbin]; specialize (IH Hbin).
  - rewrite filter_cons_True by done.
    rewrite (filter_cons_False (λ p, p.2 = 0%Qc)); [|by rewrite Hx1; apply Qc_1_ne_0].
    simpl. by f_equal.
  - rewrite (filter_cons_False (λ p, p.2 = 1%Qc));
      [|by rewrite Hx0; apply not_symmetry, Qc_1_ne_0].
    rewrite filter_cons_True by done.
    assert (Hall : Forall (λ p, p.2 = 0%Qc) l).
    { rewrite Forall_forall in Hx, Hbin. apply Forall_forall. intros p Hp.
      destruct (Hbin p Hp) as [H1|H0]; [|done].
      specialize (Hx p Hp). unfold score_ge in Hx. rewrite Hx0, H1 in Hx.
      by apply Qcle_not_lt in Hx. }
    replace (filter (λ p, p.2 = 1%Qc) l) with (@nil (bool * Qc)).
    + simpl. f_equal. symmetry. clear -Hall.
      induction Hall as [|p l Hp _ IH]; [done|].
      by rewrite filter_cons_True, IH.
    + symmetry. clear -Hall.
      induction Hall as [|p l Hp _ IH]; [done|].
      rewrite filter_cons_False; [done|].
      rewrite Hp. apply not_symmetry, Qc_1_ne_0.
Qed.

Lemma clf_curve_binary (l : list (bool * Qc)) :
  l ≠ [] →
  StronglySorted score_ge l →
  Forall (λ p, p.2 = 1%Qc ∨ p.2 = 0%Qc) l →
  let ones := filter (λ p, p.2 = 1%Qc) l in
  (∃ s, clf_curve l 0 0 = [(fps_of l, tps_of l, s)] ∧
        (ones = [] ∨ ones = l)) ∨
  clf_curve l 0 0 = [(fps_of ones, tps_of ones, 1%Qc); (fps_of l, tps_of l, 0%Qc)].
Proof.
  intros Hne Hsorted Hbin ones.
  pose proof (sorted_binary_split l Hsorted Hbin) as Hsplit. fold ones in Hsplit.
  set (zeros := filter (λ p, p.2 = 0%Qc) l) in *.
  assert (Hones : Forall (λ p, p.2 = 1%Qc) ones).
  { apply Forall_forall. by intros p [? _]%list_elem_of_filter. }
  assert (Hzeros : Forall (λ p, p.2 = 0%Qc) zeros).
  { apply Forall_forall. by intros p [? _]%list_elem_of_filter. }
  destruct ones as [|p1 ones'] eqn:Eo; [|destruct zeros as [|p0 zeros'] eqn:Ez].
  - left. exists 0%Qc. split; [|by left].
    simpl in Hsplit. rewrite Hsplit in Hne |- *.
    rewrite <- (app_nil_r zeros) at 1.
    rewrite (clf_curve_run 0%Qc) by done. simpl. by rewrite !Z.add_0_l.
  - left. exists 1%Qc. rewrite app_nil_r in Hsplit. split; [|by right].
    rewrite Hsplit. rewrite <- (app_nil_r (p1 :: ones')) at 1.
    rewrite (clf_curve_run 1%Qc) by done. simpl. by rewrite !Z.add_0_l.
  - right.
    assert (Hf : fps_of l = fps_of (p1 :: ones') + fps_of (p0 :: zeros')).
    { rewrite Hsplit at 1. apply fps_of_app. }
    assert (Ht : tps_of l = tps_of (p1 :: ones') + tps_of (p0 :: zeros')).
    { rewrite Hsplit at 1. apply tps_of_app. }
    rewrite Hf, Ht. rewrite Hsplit at 1.
    rewrite (clf_curve_run 1%Qc); [|done|done|].
    + rewrite <- (app_nil_r (p0 :: zeros')) at 1.
      rewrite (clf_curve_run 0%Qc) by done.
      simpl clf_curve. rewrite !Z.add_0_l. reflexivity.
    + apply Forall_cons in Hzeros as [-> _]. apply not_symmetry, Qc_1_ne_0.
Qed.

(** *** The area under two- and three-point curves *)

Lemma frac_bounds (a n : Z) :
  0 ≤ a ≤ n → 0 < n →
  (0 ≤ Qc_of_Z a / Qc_of_Z n)%Qc ∧ (Qc_of_Z a / Qc_of_Z n ≤ 1)%Qc.
Proof.
  intros Ha Hn.
  assert (Hinv : (0 < / Qc_of_Z n)%Qc).
  { apply Qcinv_pos. rewrite <- Z2Qc_inj_0. apply (proj1 (Z2Qc_inj_lt 0 n)). lia. }
  split.
  - apply Qcmult_nonneg_nonneg; [|by apply Qclt_le_weak].
    rewrite <- Z2Qc_inj_0. apply (proj1 (Z2Qc_inj_le 0 a)). lia.
  - rewrite <- (Qc_of_Z_div_diag n) by lia.
    apply Qcmult_le_mono_nonneg_r; [by apply Qclt_le_weak|].
    apply (proj1 (Z2Qc_inj_le a n)). lia.
Qed.

Lemma auc_two_points (N P : Z) :
  0 < N → 0 < P →
  auc (rate [0; N]) (rate [0; P]) = Return (Fin (Q2Qc (1 # 2))).
Proof.
  intros HN HP. unfold rate. cbn [List.last].
  rewrite !decide_False by lia. csimpl.
  rewrite !Qc_of_Z_0_div, !Qc_of_Z_div_diag by lia.
  vm_compute. reflexivity.
Qed.

Lemma auc_three_points (FP TP N P : Z) :
  0 ≤ FP ≤ N → 0 < N → 0 < P →
  auc (rate [0; FP; N]) (rate [0; TP; P]) =
  Return (Fin ((1 + Qc_of_Z TP / Qc_of_Z P - Qc_of_Z FP / Qc_of_Z N) / 2)%Qc).
Proof.
  intros HFP HN HP. destruct (frac_bounds FP N HFP HN) as [Ha0 Ha1].
  unfold rate. cbn [List.last].
  rewrite !decide_False by lia. csimpl.
  rewrite !Qc_of_Z_0_div, !Qc_of_Z_div_diag by lia.
  set (a := (Qc_of_Z FP / Qc_of_Z N)%Qc) in *.
  set (b := (Qc_of_Z TP / Qc_of_Z P)%Qc).
  unfold auc. cbn [length bool_decide negb diff existsb forallb fop flt0 trapz].
  rewrite (bool_decide_eq_true_2 (3 = 3)%nat) by done.
  rewrite (bool_decide_eq_false_2 (3 < 2)%nat) by lia. cbn [negb].
  rewrite (bool_decide_eq_false_2 (a - 0 < 0)%Qc).
  2:{ apply Qcle_not_lt. by replace (a - 0)%Qc with a by ring. }
  rewrite (bool_decide_eq_false_2 (1 - a < 0)%Qc).
  2:{ apply Qcle_not_lt. apply Qcle_minus_iff in Ha1. exact Ha1. }
  cbn [orb]. do 2 f_equal. field. done.
Qed.

Lemma auc_two_points_nan (N P : Z) :
  N ≤ 0 ∨ P ≤ 0 →
  auc (rate [0; N]) (rate [0; P]) = Return NaN.
Proof.
  intros Hnan. unfold rate. cbn [List.last].
  destruct (decide (N ≤ 0)) as [HN|HN].
  - by destruct (decide (P ≤ 0)).
  - destruct Hnan as [?|HP]; [lia|]. rewrite (decide_True (P:=P ≤ 0)) by done.
    csimpl. rewrite Qc_of_Z_0_div, Qc_of_Z_div_diag by lia. reflexivity.
Qed.

Lemma auc_three_points_nan (FP TP N P : Z) :
  0 ≤ FP ≤ N → N ≤ 0 ∨ P ≤ 0 →
  auc (rate [0; FP; N]) (rate [0; TP; P]) = Return NaN.
Proof.
  intros HFP Hnan. unfold rate. cbn [List.last].
  destruct (decide (N ≤ 0)) as [HN|HN].
  - by destruct (decide (P ≤ 0)).
  - destruct Hnan as [?|HP]; [lia|]. rewrite (decide_True (P:=P ≤ 0)) by done.
    destruct (frac_bounds FP N HFP ltac:(lia)) as [Ha0 Ha1].
    csimpl. rewrite Qc_of_Z_0_div, Qc_of_Z_div_diag by lia.
    set (a := (Qc_of_Z FP / Qc_of_Z N)%Qc) in *.
    unfold auc. cbn [length bool_decide negb diff existsb forallb fop flt0 trapz].
    rewrite (bool_decide_eq_true_2 (3 = 3)%nat) by done.
    rewrite (bool_decide_eq_false_2 (3 < 2)%nat) by lia. cbn [negb].
    rewrite (bool_decide_eq_false_2 (a - 0 < 0)%Qc).
    2:{ apply Qcle_not_lt. by replace (a - 0)%Qc with a by ring. }
    rewrite (bool_decide_eq_false_2 (1 - a < 0)%Qc).
    2:{ apply Qcle_minus_iff in Ha1. by apply Qcle_not_lt. }
    reflexivity.
Qed.

(** *** Counting through the confusion table *)

Lemma cell_cons (y s : bool) (p : bool * bool) (L : list (bool * bool)) :
  cell y s (p :: L) = (if decide (p = (y, s)) then 1 else 0) + cell y s L.
Proof.
  unfold cell. rewrite filter_cons. destruct (decide (p = (y, s))); simpl length; lia.
Qed.

Lemma cell_nonneg (y s : bool) (L : list (bool * bool)) : 0 ≤ cell y s L.
Proof. unfold cell. lia. Qed.

Lemma counts_of_confusion (L : list (bool * bool)) :
  let lab := (λ p : bool * bool, (p.1, b2q p.2)) <$> L in
  tps_of lab = cell true true L + cell true false L ∧
  fps_of lab = cell false true L + cell false false L ∧
  tps_of (filter (λ p, p.2 = 1%Qc) lab) = cell true true L ∧
  fps_of (filter (λ p, p.2 = 1%Qc) lab) = cell false true L.
Proof.
  induction L as [|[y s] L (IH1 & IH2 & IH3 & IH4)]; [done|].
  rewrite !cell_cons. csimpl.
  assert (H01 : (0 ≠ 1)%Qc) by apply not_symmetry, Qc_1_ne_0.
  destruct y, s; simpl b2q;
    rewrite ?(filter_cons_True (λ p : bool * Qc, p.2 = 1%Qc)) by done;
    rewrite ?(filter_cons_False (λ p : bool * Qc, p.2 = 1%Qc)) by done;
    unfold tps_of, fps_of in *; simpl;
    rewrite ?decide_True by done; rewrite ?decide_False by done;
    repeat split; lia.
Qed.

Lemma whole_b2q (bs : list bool) : forallb is_whole (b2q <$> bs) = true.
Proof. induction bs as [|[] bs IH]; [done|exact IH|exact IH]. Qed.

Lemma labels_b2q (bs : list bool) :
  (λ y, bool_decide (y = 1%Qc)) <$> (b2q <$> bs) = bs.
Proof. induction bs as [|[] bs IH]; csimpl; [done|by rewrite IH..]. Qed.

Lemma zip_fmap_b2q (bt bs : list bool) :
  zip bt (b2q <$> bs) = (λ p : bool * bool, (p.1, b2q p.2)) <$> zip bt bs.
Proof.
  revert bs. induction bt as [|y bt IH]; intros [|s bs]; csimpl; [done..|].
  by rewrite IH.
Qed.

(** With a cutoff, the curve has the end points and at most one point in
    between, read off the confusion table. *)
Lemma auc_score_cutoff_cases (c : Qc) (true_ sc : list Qc) :
  length true_ = length sc → true_ ≠ [] →
  let L := confusion c true_ sc in
  let TP := cell true true L in let FN := cell true false L in
  let FP := cell false true L in let TN := cell false false L in
  (auc_score true_ sc (Some c) = auc (rate [0; FP + TN]) (rate [0; TP + FN]) ∧
   ((TP = 0 ∧ FP = 0) ∨ (FN = 0 ∧ TN = 0))) ∨
  auc_score true_ sc (Some c) = auc (rate [0; FP; FP + TN]) (rate [0; TP; TP + FN]).
Proof.
  intros Hlen Hne L TP FN FP TN.
  set (bt := (λ x, bool_decide (x ≤ c)%Qc) <$> true_).
  set (bs := (λ x, bool_decide (x ≤ c)%Qc) <$> sc).
  set (lab := (λ p : bool * bool, (p.1, b2q p.2)) <$> L).
  destruct (counts_of_confusion L) as (Htp & Hfp & Htp1 & Hfp1).
  fold lab TP FN FP TN in Htp, Hfp, Htp1, Hfp1.
  set (sorted := merge_sort score_ge lab).
  assert (Hperm : sorted ≡ₚ lab) by apply merge_sort_Permutation.
  assert (Hsne : sorted ≠ []).
  { intros Hnil. rewrite Hnil in Hperm.
    apply Permutation_nil in Hperm. unfold lab, L, confusion in Hperm.
    apply fmap_nil_inv in Hperm. apply (f_equal length) in Hperm.
    rewrite length_zip_with, !length_fmap in Hperm.
    destruct true_; [done|]. simpl in Hlen. rewrite <- Hlen in Hperm.
    simpl in Hperm. lia. }
  assert (Hbin : Forall (λ p, p.2 = 1%Qc ∨ p.2 = 0%Qc) sorted).
  { rewrite Hperm. unfold lab. apply Forall_fmap, Forall_true.
    intros [y []]; simpl; auto. }
  assert (Hcurve : auc_score true_ sc (Some c) =
            '(fpr, tpr, thresholds) ←
               (match drop_intermediate (clf_curve sorted 0 0) with
                | [] => Raise (IndexError "cannot do a non-empty take from an empty axes.")
                | ((_, _, s0) :: _) as pts =>
                    Return (rate (0 :: ((λ p : point, p.1.1) <$> pts)),
                            rate (0 :: ((λ p : point, p.1.2) <$> pts)),
                            (s0 + 1)%Qc :: ((λ p : point, p.2) <$> pts))
                end);
             r ← auc fpr tpr; mret r).
  { unfold auc_score, roc_curve. rewrite !binarize_b2q. fold bt bs.
    rewrite whole_b2q. cbn [negb].
    rewrite bool_decide_eq_true_2 by (by unfold bt, bs; rewrite !length_fmap).
    cbn [negb]. rewrite labels_b2q, zip_fmap_b2q. reflexivity. }
  rewrite Hcurve.
  destruct (clf_curve_binary sorted Hsne) as [(s & -> & Hones)| ->].
  - apply StronglySorted_merge_sort; apply _.
  - done.
  - left. rewrite (fps_of_Permutation _ _ Hperm), (tps_of_Permutation _ _ Hperm).
    rewrite Hfp, Htp. split.
    + cbn. by destruct (auc _ _).
    + assert (Hf1 : fps_of (filter (λ p, p.2 = 1%Qc) sorted) = FP).
      { rewrite <- Hfp1. apply fps_of_Permutation. by rewrite Hperm. }
      assert (Ht1 : tps_of (filter (λ p, p.2 = 1%Qc) sorted) = TP).
      { rewrite <- Htp1. apply tps_of_Permutation. by rewrite Hperm. }
      destruct Hones as [Hnil|Hall].
      * left. rewrite Hnil in Hf1, Ht1. by split.
      * right. rewrite Hall in Hf1, Ht1.
        rewrite (fps_of_Permutation _ _ Hperm) in Hf1.
        rewrite (tps_of_Permutation _ _ Hperm) in Ht1.
        pose proof (cell_nonneg true false L) as HFN.
        pose proof (cell_nonneg false false L) as HTN.
        fold FN in HFN. fold TN in HTN. split; lia.
  - right. rewrite (fps_of_Permutation _ _ Hperm), (tps_of_Permutation _ _ Hperm).
    rewrite (fps_of_Permutation (filter _ sorted) (filter (λ p, p.2 = 1%Qc) lab))
      by (by rewrite Hperm).
    rewrite (tps_of_Permutation (filter _ sorted) (filter (λ p, p.2 = 1%Qc) lab))
      by (by rewrite Hperm).
    rewrite Hfp, Htp, Hfp1, Htp1.
    cbn. by destruct (auc _ _).
Qed.

Lemma confusion_nil_cells (c : Qc) (sc : list Qc) (y s : bool) :
  cell y s (confusion c [] sc) = 0.
Proof. reflexivity. Qed.

(** *** Reading the confusion table off the two sequences *)

Lemma confusion_true_side (c : Qc) (true_ sc : list Qc) (b : bool) :
  Forall (λ x, bool_decide (x ≤ c)%Qc = b) true_ →
  ∀ s, cell (negb b) s (confusion c true_ sc) = 0.
Proof.
  intros Hall s. unfold confusion. revert sc.
  induction Hall as [|x true_ Hx _ IH]; intros [|z sc]; csimpl; [done..|].
  rewrite cell_cons, IH, Hx.
  rewrite decide_False; [done|]. intros [= Hb _]. by destruct b.
Qed.

(** X7. When every true value lies on the same side of the cutoff, the
    true-positive or the false-positive rate is undefined and
    [auc_score] returns [nan]; it does not raise. *)
Theorem auc_score_single_class (c : Qc) (true_ sc : list Qc) :
  length true_ = length sc → true_ ≠ [] →
  Forall (λ x, (x ≤ c)%Qc) true_ ∨ Forall (λ x, ¬ (x ≤ c)%Qc) true_ →
  auc_score true_ sc (Some c) = Return NaN.
Proof.
  intros Hlen Hne Hside.
  set (L := confusion c true_ sc).
  assert (Hnan : cell false true L + cell false false L ≤ 0
                 ∨ cell true true L + cell true false L ≤ 0).
  { destruct Hside as [Hpos|Hneg].
    - left.
      assert (Hall : Forall (λ x, bool_decide (x ≤ c)%Qc = true) true_).
      { eapply Forall_impl; [exact Hpos|]. intros x Hx. by apply bool_decide_eq_true_2. }
      pose proof (confusion_true_side c true_ sc true Hall true) as H1.
      pose proof (confusion_true_side c true_ sc true Hall false) as H2.
      simpl in H1, H2. fold L in H1, H2. lia.
    - right.
      assert (Hall : Forall (λ x, bool_decide (x ≤ c)%Qc = false) true_).
      { eapply Forall_impl; [exact Hneg|]. intros x Hx. by apply bool_decide_eq_false_2. }
      pose proof (confusion_true_side c true_ sc false Hall true) as H1.
      pose proof (confusion_true_side c true_ sc false Hall false) as H2.
      simpl in H1, H2. fold L in H1, H2. lia. }
  pose proof (cell_nonneg false true L) as HFP.
  pose proof (cell_nonneg false false L) as HTN.
  pose proof (auc_score_cutoff_cases c true_ sc Hlen Hne) as Hcases.
  cbv zeta in Hcases. fold L in Hcases.
  destruct Hcases as [[-> _]| ->].
  - by apply auc_two_points_nan.
  - apply auc_three_points_nan; [lia|done].
Qed.

Lemma confusion_score_side (c : Qc) (true_ sc : list Qc) (b : bool) :
  Forall (λ y, bool_decide (y ≤ c)%Qc = b) sc →
  ∀ y, cell y (negb b) (confusion c true_ sc) = 0.
Proof.
  intros Hall y. unfold confusion. revert true_.
  induction Hall as [|z sc Hz _ IH]; intros [|x true_]; csimpl; [done..|].
  rewrite cell_cons, IH, Hz.
  rewrite decide_False; [done|]. intros [= _ Hb]. by destruct b.
Qed.

Lemma confusion_inverted (c : Qc) (true_ sc : list Qc) :
  Forall2 (λ x y, (x ≤ c)%Qc ↔ ¬ (y ≤ c)%Qc) true_ sc →
  cell true true (confusion c true_ sc) = 0 ∧
  cell false false (confusion c true_ sc) = 0.
Proof.
  unfold confusion.
  induction 1 as [|x y true_ sc Hxy _ [IH1 IH2]]; [done|]. csimpl.
  rewrite !cell_cons, IH1, IH2.
  destruct (decide (y ≤ c)%Qc) as [Hy|Hy].
  - rewrite (bool_decide_eq_true_2 (y ≤ c)%Qc) by done.
    rewrite (bool_decide_eq_false_2 (x ≤ c)%Qc) by tauto.
    by rewrite !decide_False by done.
  - rewrite (bool_decide_eq_false_2 (y ≤ c)%Qc) by done.
    rewrite (bool_decide_eq_true_2 (x ≤ c)%Qc) by tauto.
    by rewrite !decide_False by done.
Qed.

Lemma confusion_class_present (c : Qc) (true_ sc : list Qc) (b : bool) :
  length true_ = length sc →
  Exists (λ x, bool_decide (x ≤ c)%Qc = b) true_ →
  0 < cell b true (confusion c true_ sc) + cell b false (confusion c true_ sc).
Proof.
  intros Hlen Hex. unfold confusion. revert sc Hlen.
  induction true_ as [|x true_ IH]; intros [|y sc] Hlen; [by inv Hex|done..|].
  csimpl. rewrite !cell_cons.
  pose proof (cell_nonneg b true
    (zip ((λ x, bool_decide (x ≤ c)%Qc) <$> true_) ((λ x, bool_decide (x ≤ c)%Qc) <$> sc))).
  pose proof (cell_nonneg b false
    (zip ((λ x, bool_decide (x ≤ c)%Qc) <$> true_) ((λ x, bool_decide (x ≤ c)%Qc) <$> sc))).
  apply Exists_cons in Hex as [Hx|Hex].
  - rewrite Hx. destruct (bool_decide (y ≤ c)%Qc).
    + rewrite (decide_True (P:=(b, true) = (b, true))) by done.
      rewrite (decide_False (P:=(b, true) = (b, false))) by done. lia.
    + rewrite (decide_False (P:=(b, false) = (b, true))) by done.
      rewrite (decide_True (P:=(b, false) = (b, false))) by done. lia.
  - specialize (IH Hex sc ltac:(by injection Hlen)).
    repeat case_decide; lia.
Qed.

(** X6. With a cutoff and both classes among the true values of two
    sequences of equal length: when all scores lie on the same side of
    the cutoff, [auc_score] returns 1/2; when every score lies on the
    side opposite to its true value, it returns 0. *)
Theorem auc_score_uninformative_or_inverted (c : Qc) (true_ sc : list Qc) :
  length true_ = length sc →
  Exists (λ x, (x ≤ c)%Qc) true_ →
  Exists (λ x, ¬ (x ≤ c)%Qc) true_ →
  (Forall (λ y, (y ≤ c)%Qc) sc ∨ Forall (λ y, ¬ (y ≤ c)%Qc) sc →
   auc_score true_ sc (Some c) = Return (Fin (Q2Qc (1 # 2)))) ∧
  (Forall2 (λ x y, (x ≤ c)%Qc ↔ ¬ (y ≤ c)%Qc) true_ sc →
   auc_score true_ sc (Some c) = Return (Fin 0%Qc)).
Proof.
  intros Hlen Hpos Hneg.
  assert (Hne : true_ ≠ []) by (intros ->; by inv Hpos).
  set (L := confusion c true_ sc).
  assert (HP : 0 < cell true true L + cell true false L).
  { apply confusion_class_present; [done|].
    eapply Exists_impl; [exact Hpos|]. intros x Hx. by apply bool_decide_eq_true_2. }
  assert (HN : 0 < cell false true L + cell false false L).
  { apply confusion_class_present; [done|].
    eapply Exists_impl; [exact Hneg|]. intros x Hx. by apply bool_decide_eq_false_2. }
  pose proof (cell_nonneg false true L) as HFP.
  pose proof (cell_nonneg false false L) as HTN.
  pose proof (auc_score_cutoff_cases c true_ sc Hlen Hne) as Hcases.
  cbv zeta in Hcases. fold L in Hcases.
  split.
  - intros Hside.
    assert (Hzero : (cell true false L = 0 ∧ cell false false L = 0)
                    ∨ (cell true true L = 0 ∧ cell false true L = 0)).
    { destruct Hside as [Hall|Hall].
      - left.
        assert (Hb : Forall (λ y, bool_decide (y ≤ c)%Qc = true) sc).
        { eapply Forall_impl; [exact Hall|]. intros y Hy. by apply bool_decide_eq_true_2. }
        split; apply (confusion_score_side c true_ sc true Hb).
      - right.
        assert (Hb : Forall (λ y, bool_decide (y ≤ c)%Qc = false) sc).
        { eapply Forall_impl; [exact Hall|]. intros y Hy. by apply bool_decide_eq_false_2. }
        split; apply (confusion_score_side c true_ sc false Hb). }
    destruct Hcases as [[-> _]| ->].
    + by apply auc_two_points.
    + rewrite auc_three_points by (done || lia). do 2 f_equal.
      destruct Hzero as [[H1 H2]|[H1 H2]]; rewrite H1, H2 in *.
      * rewrite !Z.add_0_r in *. rewrite !Qc_of_Z_div_diag by lia.
        by apply Qc_is_canon.
      * rewrite !Qc_of_Z_0_div. by apply Qc_is_canon.
  - intros Hinv. destruct (confusion_inverted c true_ sc Hinv) as [HTP0 HTN0].
    fold L in HTP0, HTN0.
    destruct Hcases as [[_ Hdeg]| ->]; [lia|].
    rewrite auc_three_points by (done || lia). do 2 f_equal.
    rewrite HTP0, HTN0, Z.add_0_r in *.
    rewrite Qc_of_Z_0_div, Qc_of_Z_div_diag by lia. by apply Qc_is_canon.
Qed.




Lemma auc_score_uninformative_or_inverted_toy :
  auc_score [Qc_of_Z 120; Qc_of_Z 7000; Qc_of_Z 45] [Qc_of_Z 300; Qc_of_Z 20; Qc_of_Z 499]
            (Some (Qc_of_Z 500))
    = Return (Fin (Q2Qc (1 # 2))) ∧
  auc_score [Qc_of_Z 120; Qc_of_Z 7000; Qc_of_Z 45] [Qc_of_Z 900; Qc_of_Z 20; Qc_of_Z 501]
            (Some (Qc_of_Z 500))
    = Return (Fin 0%Qc).
Proof.
  split.
  - apply (auc_score_uninformative_or_inverted (Qc_of_Z 500)
             [Qc_of_Z 120; Qc_of_Z 7000; Qc_of_Z 45] [Qc_of_Z 300; Qc_of_Z 20; Qc_of_Z 499]);
      [reflexivity|apply (bool_decide_unpack _); vm_compute; exact I..|].
    left. apply (bool_decide_unpack _). vm_compute. exact I.
  - apply (auc_score_uninformative_or_inverted (Qc_of_Z 500)
             [Qc_of_Z 120; Qc_of_Z 7000; Qc_of_Z 45] [Qc_of_Z 900; Qc_of_Z 20; Qc_of_Z 501]);
      [reflexivity|apply (bool_decide_unpack _); vm_compute; exact I..].
Defined.

Lemma auc_score_single_class_toy :
  auc_score [Qc_of_Z 120; Qc_of_Z 45] [Qc_of_Z 300; Qc_of_Z 800] (Some (Qc_of_Z 500))
  = Return NaN.
Proof.
  apply (auc_score_single_class (Qc_of_Z 500) [Qc_of_Z 120; Qc_of_Z 45]
           [Qc_of_Z 300; Qc_of_Z 800]).
  - reflexivity.
  - discriminate.
  - left. apply (bool_decide_unpack _). vm_compute. exact I.
Defined.


Lemma auc_score_cutoff_returns (c : Qc) (true_ sc : list Qc) :
  length true_ = length sc → true_ ≠ [] →
  ∃ r, auc_score true_ sc (Some c) = Return r.
Proof.
  intros Hlen Hne.
  set (L := confusion c true_ sc).
  pose proof (cell_nonneg false true L) as HFP.
  pose proof (cell_nonneg false false L) as HTN.
  pose proof (auc_score_cutoff_cases c true_ sc Hlen Hne) as Hcases.
  cbv zeta in Hcases. fold L in Hcases.
  destruct (decide (0 < cell false true L + cell false false L
                    ∧ 0 < cell true true L + cell true false L)) as [[HN HP]|Hnan].
  - destruct Hcases as [[-> _]| ->]; eexists.
    + by apply auc_two_points.
    + apply auc_three_points; [lia|done..].
  - exists NaN. destruct Hcases as [[-> _]| ->].
    + apply auc_two_points_nan. lia.
    + apply auc_three_points_nan; lia.
Qed.

(** ** What [evaluate_predictor] can return *)

Section evaluator_more.
Context {W predictor : Type}.
Variable get_evaluation_set : option string → option nat → list sample.
Variable predict_peptides : predictor → list string → string → nat → Py W ().
Variable get_scores : predictor → string → Py W (list (string * Qc)).
Variable name : predictor → string.

(** X9. Once the predictor has produced its scores, [evaluate_predictor]
    fails exactly when no peptide of the evaluation set has a score (the
    merged frame is empty, and the ROC computation raises [IndexError]);
    otherwise it returns an area, possibly [nan], together with the
    evaluation set. *)
Theorem evaluate_predictor_outcome (P : predictor) (allele : string)
    (s s1 s2 : state W) (x : list (string * Qc)) :
  let data := get_evaluation_set (Some allele) (Some 9%nat) in
  predict_peptides P (peptide <$> data) allele 4%nat s = (Return (), s1) →
  get_scores P allele s1 = (Return x, s2) →
  (merge_on_peptide data x = [] →
   ∃ msg, evaluate_predictor get_evaluation_set predict_peptides get_scores P allele s
          = (Raise (IndexError msg), s2)) ∧
  (merge_on_peptide data x ≠ [] →
   ∃ auc, evaluate_predictor get_evaluation_set predict_peptides get_scores P allele s
          = (Return (auc, data), s2)).
Proof.
  intros data Hp Hg.
  assert (Hrun : evaluate_predictor get_evaluation_set predict_peptides get_scores P allele s =
    ((λ auc, (auc, data)) <$>
       auc_score ((λ r, ic50 r.1) <$> merge_on_peptide data x)
                 (snd <$> merge_on_peptide data x) (Some (Qc_of_Z 500)), s2)).
  { unfold evaluate_predictor. fold data.
    rewrite (Py_bind_Return _ _ _ _ _ Hp), (Py_bind_Return _ _ _ _ _ Hg).
    unfold mbind, Py_bind, lift. by destruct (auc_score _ _ _). }
  rewrite Hrun. split.
  - intros ->. by eexists.
  - intros Hne.
    destruct (auc_score_cutoff_returns (Qc_of_Z 500)
                ((λ r, ic50 r.1) <$> merge_on_peptide data x)
                (snd <$> merge_on_peptide data x)) as [r ->].
    + by rewrite !length_fmap.
    + by intros ?%fmap_nil_inv.
    + by exists r.
Qed.
End evaluator_more.

Lemma evaluate_predictor_outcome_toy :
  (∃ msg, evaluate_predictor toy_evaluation_set toy_predict_peptides toy_get_scores
            "basicmhc1" "HLA-B*07:02" init_state
          = (Raise (IndexError msg), init_state)) ∧
  ∃ auc, evaluate_predictor toy_evaluation_set toy_predict_peptides toy_get_scores
           "basicmhc1" "HLA-A*01:01" init_state
         = (Return (auc, toy_evaluation_set (Some "HLA-A*01:01"%string) (Some 9%nat)),
            init_state).
Proof.
  split.
  - apply (evaluate_predictor_outcome toy_evaluation_set toy_predict_peptides
             toy_get_scores "basicmhc1" "HLA-B*07:02" init_state init_state init_state
             [("ALDFEQEMT"%string, Qc_of_Z 300); ("YLDFEQEMW"%string, Qc_of_Z 2500)]);
      vm_compute; reflexivity.
  - apply (evaluate_predictor_outcome toy_evaluation_set toy_predict_peptides
             toy_get_scores "basicmhc1" "HLA-A*01:01" init_state init_state init_state
             [("ALDFEQEMT"%string, Qc_of_Z 300); ("YLDFEQEMW"%string, Qc_of_Z 2500)]);
      [vm_compute; reflexivity..|].
    vm_compute. discriminate.
Defined.

(** ** The evaluation loops *)

Section loops.
Context {W predictor : Type}.
Variable get_evaluation_set : option string → option nat → list sample.
Variable predict_peptides : predictor → list string → string → nat → Py W ().
Variable get_scores : predictor → string → Py W (list (string * Qc)).
Variable name : predictor → string.

Lemma evaluate_predictor_size P a s auc df s' :
  evaluate_predictor get_evaluation_set predict_peptides get_scores P a s
    = (Return (auc, df), s') →
  df = get_evaluation_set (Some a) (Some 9%nat).
Proof.
  unfold evaluate_predictor, mbind, Py_bind, lift.
  destruct (predict_peptides _ _ _ _ _) as [[[]|?] s1]; [|done].
  destruct (get_scores _ _ _) as [[x|?] s2]; [|done].
  destruct (auc_score _ _ _); [|done].
  by intros [= _ <- _].
Qed.

(** X10. The loop over the alleles never ends with an [Exception]: if it
    raises at all, what it raises is outside [Exception] (such as
    [KeyboardInterrupt]). *)
Theorem evaluate_alleles_never_Exception (P : predictor) (test_alleles : list string)
    (m : list row) (s s' : state W) (e : exn) :
  evaluate_alleles get_evaluation_set predict_peptides get_scores P test_alleles m s
    = (Raise e, s') →
  is_Exception e = false.
Proof.
  revert m s. induction test_alleles as [|a rest IH]; intros m s Hrun; [done|].
  simpl in Hrun. unfold mbind at 1, Py_bind at 1 in Hrun.
  destruct (try_except _ _ s) as [[m1|e1] s1] eqn:Htry.
  - by eapply IH.
  - injection Hrun as <- <-.
    unfold try_except, mbind, Py_bind, print in Htry.
    destruct (evaluate_predictor _ _ _ P a s) as [[[auc df]|e2] s2]; [done|].
    destruct (is_Exception e2) eqn:He2; [done|]. by injection Htry as <- _.
Qed.

(** X11. The rows the loop adds belong to alleles of [test_alleles], in
    that order and at most one per listed allele, and the size recorded
    in a row is the number of rows of that allele's evaluation set. *)
Theorem evaluate_alleles_rows (P : predictor) (test_alleles : list string)
    (m rows : list row) (s s' : state W) :
  evaluate_alleles get_evaluation_set predict_peptides get_scores P test_alleles m s
    = (Return rows, s') →
  ∃ added : list row,
    rows = m ++ added ∧
    (λ r : row, r.1.1) <$> added `sublist_of` test_alleles ∧
    Forall (λ r : row, r.2 = length (get_evaluation_set (Some r.1.1) (Some 9%nat))) added.
Proof.
  revert m s. induction test_alleles as [|a rest IH]; intros m s Hrun.
  - injection Hrun as <- _. exists []. by rewrite app_nil_r.
  - simpl in Hrun. unfold mbind at 1, Py_bind at 1 in Hrun.
    destruct (try_except _ _ s) as [[m1|e1] s1] eqn:Htry; [|done].
    apply IH in Hrun as (added & -> & Hsub & Hsize).
    unfold try_except in Htry. unfold mbind, Py_bind, print in Htry.
    destruct (evaluate_predictor _ _ _ P a s) as [[[auc df]|e] s2] eqn:Hev.
    + injection Htry as <- _. apply evaluate_predictor_size in Hev as ->.
      exists ((a, auc, length (get_evaluation_set (Some a) (Some 9%nat))) :: added).
      split; [by rewrite <- app_assoc|]. split.
      * csimpl. by apply sublist_skip.
      * by constructor.
    + destruct (is_Exception e); [|done]. injection Htry as <- _.
      exists added. split; [done|]. split; [by apply sublist_cons|done].
Qed.

(** X12. When the loop over the predictors completes, [comp] holds one
    table per predictor, in the order of [preds], each tagged with its
    predictor's name. *)
Theorem evaluate_all_names (preds : list predictor)
    (comp : list (string * list row)) (s s' : state W) :
  evaluate_all get_evaluation_set predict_peptides get_scores name preds s
    = (Return comp, s') →
  fst <$> comp = name <$> preds.
Proof.
  unfold evaluate_all.
  set (test_alleles := unique _).
  set (body := λ P : predictor,
         m ← evaluate_alleles get_evaluation_set predict_peptides get_scores
               P test_alleles [];
         mret (name P, m)).
  assert (Hbody : ∀ P s r s', body P s = (Return r, s') → r.1 = name P).
  { intros P s0 r s1. unfold body, mbind, Py_bind.
    destruct (evaluate_alleles _ _ _ P test_alleles [] s0) as [[m|e] s2]; [|done].
    by intros [= <- _]. }
  clearbody body.
  revert comp s s'. induction preds as [|P preds IH]; intros comp s s' Hrun.
  - by injection Hrun as <- _.
  - rewrite mapM_Py_cons in Hrun. unfold mbind, Py_bind in Hrun.
    destruct (body P s) as [[r|e] s1] eqn:Hr; [|done].
    destruct (mapM body preds s1) as [[k|e] s2] eqn:Hk; [|done].
    injection Hrun as <- _. csimpl. f_equal.
    + by apply Hbody in Hr.
    + by apply IH in Hk.
Qed.
End loops.

Lemma evaluate_alleles_never_Exception_toy : is_Exception KeyboardInterrupt = false.
Proof.
  apply (evaluate_alleles_never_Exception toy_evaluation_set toy_predict_interrupted
           toy_get_scores "basicmhc1" ["HLA-A*01:01"; "HLA-C*04:01"; "HLA-A*01:01"]%string
           [] init_state init_state KeyboardInterrupt).
  vm_compute. reflexivity.
Defined.

Lemma evaluate_alleles_rows_toy :
  ∃ added : list row,
    [("HLA-A*01:01"%string, Fin 1%Qc, 2%nat)] = [] ++ added ∧
    (λ r : row, r.1.1) <$> added `sublist_of` ["HLA-C*04:01"; "HLA-A*01:01"]%string ∧
    Forall (λ r : row, r.2 = length (toy_evaluation_set (Some r.1.1) (Some 9%nat))) added.
Proof.
  apply (evaluate_alleles_rows toy_evaluation_set toy_predict_peptides toy_get_scores
           "basicmhc1" ["HLA-C*04:01"; "HLA-A*01:01"]%string [] _ init_state
           (State () [[PStr "HLA-C*04:01"; PExn (LibraryError "no model for allele")]])).
  vm_compute. reflexivity.
Defined.

Lemma evaluate_all_names_toy :
  fst <$> ([("basicmhc1"%string, [("HLA-A*01:01"%string, Fin 1%Qc, 2%nat)]);
            ("netmhcpan"%string, [("HLA-A*01:01"%string, Fin 1%Qc, 2%nat)])]
           : list (string * list row))
  = (λ P : string, P) <$> ["basicmhc1"; "netmhcpan"]%string.
Proof.
  apply (evaluate_all_names toy_evaluation_set toy_predict_peptides toy_get_scores
           (λ P : string, P)
           ["basicmhc1"; "netmhcpan"]%string _ init_state
           (State () [[PStr "HLA-C*04:01"; PExn (LibraryError "no model for allele")];
                      [PStr "HLA-C*04:01"; PExn (LibraryError "no model for allele")]])).
  vm_compute. reflexivity.
Defined.

(** ** The alleles selected for training *)

Lemma unique_NoDup (l : list string) : NoDup (unique l).
Proof.
  induction l as [|x l IH]; simpl; constructor.
  - by intros [? _]%list_elem_of_filter.
  - by apply NoDup_filter.
Qed.

#[global] Instance count_ge_total : Total count_ge.
Proof. intros p q. unfold count_ge. lia. Qed.

#[global] Instance count_ge_trans : Transitive count_ge.
Proof. intros p q r. unfold count_ge. lia. Qed.

Lemma StronglySorted_filter {A} (R : relation A) (P : A → Prop)
    `{∀ x, Decision (P x)} (l : list A) :
  StronglySorted R l → StronglySorted R (filter P l).
Proof.
  induction 1 as [|x l Hl IH Hx]; [constructor|].
  rewrite filter_cons. destruct (decide (P x)); [|done].
  constructor; [done|]. apply Forall_forall. intros y [_ Hy]%list_elem_of_filter.
  rewrite Forall_forall in Hx. auto.
Qed.

Lemma StronglySorted_fst_counts (f : string → nat) (l : list (string * nat)) :
  StronglySorted count_ge l →
  Forall (λ p, p.2 = f p.1) l →
  StronglySorted (λ a b, (f b ≤ f a)%nat) (fst <$> l).
Proof.
  induction 1 as [|p l Hl IH Hp]; intros Hinv; csimpl; constructor.
  - apply IH. by apply Forall_cons in Hinv as [_ ?].
  - apply Forall_cons in Hinv as [Hp1 Hinv].
    apply Forall_fmap, Forall_forall. intros q Hq.
    rewrite Forall_forall in Hp, Hinv. specialize (Hp q Hq). specialize (Hinv q Hq).
    unfold count_ge in Hp. simpl. lia.
Qed.

Section selection.
Variable get_training_set : option string → option nat → list sample.

Lemma get_allele_names_NoDup : NoDup (get_allele_names get_training_set).
Proof.
  unfold get_allele_names.
  set (l := allele <$> get_training_set None (Some 9%nat)).
  eapply sublist_NoDup; [|apply fmap_sublist, sublist_filter].
  unfold value_counts. rewrite merge_sort_Permutation, <- list_fmap_compose.
  rewrite (list_fmap_ext _ (@Datatypes.id string) (unique l)) by done.
  rewrite list_fmap_id. apply unique_NoDup.
Qed.

(** X13. [get_allele_names] lists no allele twice, lists only alleles
    that occur in the length-9 training set, and lists them by
    decreasing number of length-9 rows. *)
Theorem get_allele_names_distinct_sorted :
  NoDup (get_allele_names get_training_set) ∧
  (∀ a, a ∈ get_allele_names get_training_set →
        a ∈ allele <$> get_training_set None (Some 9%nat)) ∧
  StronglySorted
    (λ a b, (count9 get_training_set b ≤ count9 get_training_set a)%nat)
    (get_allele_names get_training_set).
Proof.
  split; [apply get_allele_names_NoDup|].
  unfold get_allele_names.
  set (l := allele <$> get_training_set None (Some 9%nat)).
  split.
  - intros a ([k n] & -> & Hin)%list_elem_of_fmap.
    apply list_elem_of_filter in Hin as [_ Hin].
    by apply elem_of_value_counts in Hin as [? _].
  - apply StronglySorted_fst_counts.
    + apply StronglySorted_filter. unfold value_counts.
      apply StronglySorted_merge_sort; apply _.
    + apply Forall_forall. intros [k n] [_ Hin]%list_elem_of_filter.
      by apply elem_of_value_counts in Hin as [_ ->].
Qed.
End selection.

(** ** Model files and the training loop *)

Lemma string_app_inv_tail (a b c : string) : (a ++ c = b ++ c → a = b)%string.
Proof.
  intros H. apply list_ascii_of_string_inj.
  apply (f_equal list_ascii_of_string) in H.
  rewrite !list_ascii_of_string_app in H. by apply app_inv_tail in H.
Qed.

Lemma fname_unfold (a : string) :
  fname a = if startswith_sep (a ++ ".joblib") then (a ++ ".joblib")%string
            else ("models/" ++ (a ++ ".joblib"))%string.
Proof. unfold fname, os_path_join. by destruct (startswith_sep _). Qed.

Lemma startswith_sep_head (b : string) :
  startswith_sep b = true → ∃ b', b = String "/" b'.
Proof.
  destruct b as [|c b']; [done|]. simpl.
  destruct (decide (c = "/"%char)) as [->|Hne]; [by eexists|].
  destruct c as [[] [] [] [] [] [] [] []]; try done.
Qed.

Lemma fname_inj (a b : string) : fname a = fname b → a = b.
Proof.
  rewrite !fname_unfold.
  destruct (startswith_sep (a ++ ".joblib")) eqn:Ha,
           (startswith_sep (b ++ ".joblib")) eqn:Hb.
  - apply string_app_inv_tail.
  - apply startswith_sep_head in Ha as [a' ->]. discriminate.
  - apply startswith_sep_head in Hb as [b' ->]. discriminate.
  - intros [= H]. change (a ++ ".joblib" = b ++ ".joblib")%string in H.
    by apply string_app_inv_tail in H.
Qed.

Section training_facts.
Context {W V M : Type}.
Variable get_training_set : option string → option nat → list sample.
Variable fit : list (pyobj V) → list Qc → Py W M.
Variable dump : M → string → Z → Py W ().
Variable blosum : table V.

(** X14. Different alleles are saved under different file names, and the
    file names of the alleles selected for training are pairwise
    distinct: within one run no model file is written twice. *)
Theorem fname_distinct :
  (∀ a b, a ≠ b → fname a ≠ fname b) ∧
  NoDup (fname <$> get_allele_names get_training_set).
Proof.
  split.
  - intros a b Hne Heq. by apply Hne, fname_inj.
  - apply NoDup_fmap_2_strong.
    + intros a b _ _. apply fname_inj.
    + apply get_allele_names_NoDup.
Qed.

Lemma train_alleles_app (l1 l2 : list string) (s : state W) :
  train_alleles get_training_set fit dump blosum (l1 ++ l2) s =
  (train_alleles get_training_set fit dump blosum l1;;
   train_alleles get_training_set fit dump blosum l2) s.
Proof.
  revert s. induction l1 as [|a l1 IH]; intros s; [done|].
  simpl. unfold mbind, Py_bind.
  destruct (build_predictor _ _ _ _ s) as [[[reg|]|e] s1]; [| |done].
  - destruct (dump reg (fname a) 2 s1) as [[[]|e] s2]; [|done]. apply IH.
  - apply IH.
Qed.

(** X15. The training loop has no handler: when the alleles before [a]
    have been processed and building or saving the predictor of [a]
    raises, the loop ends with that exception in the state the failed
    call left, whatever alleles come after [a]. *)
Theorem train_alleles_aborts (pre post : list string) (a : string)
    (s s1 s2 : state W) (e : exn) :
  train_alleles get_training_set fit dump blosum pre s = (Return (), s1) →
  (build_predictor get_training_set fit a (λ p, lift (blosum_encode blosum p)) s1
     = (Raise e, s2) →
   train_alleles get_training_set fit dump blosum (pre ++ a :: post) s = (Raise e, s2)) ∧
  (∀ reg s3,
     build_predictor get_training_set fit a (λ p, lift (blosum_encode blosum p)) s1
       = (Return (Some reg), s3) →
     dump reg (fname a) 2 s3 = (Raise e, s2) →
     train_alleles get_training_set fit dump blosum (pre ++ a :: post) s = (Raise e, s2)).
Proof.
  intros Hpre. split.
  - intros Hbuild. rewrite train_alleles_app.
    rewrite (Py_bind_Return _ _ _ _ _ Hpre). simpl.
    by rewrite (Py_bind_Raise _ _ _ _ _ Hbuild).
  - intros reg s3 Hbuild Hdump. rewrite train_alleles_app.
    rewrite (Py_bind_Return _ _ _ _ _ Hpre). simpl.
    rewrite (Py_bind_Return _ _ _ _ _ Hbuild).
    by rewrite (Py_bind_Raise _ _ _ _ _ Hdump).
Qed.
End training_facts.

Lemma get_allele_names_distinct_sorted_toy :
  NoDup (get_allele_names toy_training_set) ∧
  (∀ a, a ∈ get_allele_names toy_training_set →
        a ∈ allele <$> toy_training_set None (Some 9%nat)) ∧
  StronglySorted
    (λ a b, (count9 toy_training_set b ≤ count9 toy_training_set a)%nat)
    (get_allele_names toy_training_set).
Proof. apply (get_allele_names_distinct_sorted toy_training_set). Defined.

Lemma fname_distinct_toy :
  fname "HLA-A*01:01" ≠ fname "HLA-A*02:01" ∧
  NoDup (fname <$> get_allele_names toy_training_set).
Proof.
  split.
  - apply (fname_distinct toy_training_set). discriminate.
  - apply (fname_distinct toy_training_set).
Defined.

Example fname_HLA : fname "HLA-A*01:01" = "models/HLA-A*01:01.joblib"%string.
Proof. reflexivity. Qed.

Lemma train_alleles_aborts_toy :
  train_alleles toy_training_set toy_fit toy_dump_full (∅ : table Z)
    (["HLA-B*07:02"%string] ++ "HLA-A*02:01"%string :: ["HLA-A*01:01"%string]) init_state
    = (Raise (KeyError "L"), init_state) ∧
  train_alleles toy_training_set toy_fit toy_dump_full toy_blosum
    (["HLA-B*07:02"%string] ++ "HLA-A*02:01"%string :: ["HLA-A*01:01"%string]) init_state
    = (Raise (LibraryError "No space left on device"),
       State () [[PStr "HLA-A*02:01"; PInt 200]]).
Proof.
  split.
  - apply (train_alleles_aborts toy_training_set toy_fit toy_dump_full ∅
             ["HLA-B*07:02"%string] ["HLA-A*01:01"%string] "HLA-A*02:01"
             init_state init_state init_state (KeyError "L"));
      vm_compute; reflexivity.
  - eapply (train_alleles_aborts toy_training_set toy_fit toy_dump_full toy_blosum
              ["HLA-B*07:02"%string] ["HLA-A*01:01"%string] "HLA-A*02:01"
              init_state init_state _ (LibraryError "No space left on device"));
      vm_compute; reflexivity.
Defined.

(** ** Training on a peptide that cannot be encoded *)

Section encoder_failure.
Context {W V M : Type}.
Variable get_training_set : option string → option nat → list sample.
Variable fit : list (pyobj V) → list Qc → Py W M.

Lemma mapM_lift (f : string → res (pyobj V)) (l : list string) (s : state W) :
  mapM (λ p, lift (f p)) l s = (mapM f l, s).
Proof.
  induction l as [|p l IH]; [done|].
  rewrite mapM_Py_cons. cbv beta.
  change (mapM f (p :: l)) with (y ← f p; k ← mapM f l; mret (y :: k)).
  destruct (f p) as [y|e] eqn:Hf.
  - rewrite (Py_bind_Return (lift (Return y)) _ s y s eq_refl).
    destruct (mapM f l) as [k|e] eqn:Hk.
    + by rewrite (Py_bind_Return _ _ _ _ _ IH).
    + by rewrite (Py_bind_Raise _ _ _ _ _ IH).
  - by rewrite (Py_bind_Raise (lift (Raise e)) _ s e s eq_refl).
Qed.

(** X16. When the allele has at least 200 training rows and the encoder
    raises on one of its peptides, [build_predictor] raises the
    exception of the first such peptide: nothing is printed and no
    regressor is fitted. *)
Theorem build_predictor_encoder_raises (allele : string)
    (f : string → res (pyobj V)) (pre post : list string) (p : string)
    (e : exn) (s : state W) :
  (200 ≤ length (get_training_set (Some allele) None))%nat →
  peptide <$> get_training_set (Some allele) None = pre ++ p :: post →
  Forall (λ q, ∃ v, f q = Return v) pre →
  f p = Raise e →
  build_predictor get_training_set fit allele (λ q, lift (f q)) s = (Raise e, s).
Proof.
  intros Hge Hsplit Hpre Hp.
  rewrite build_predictor_large by done.
  apply Py_bind_Raise. rewrite mapM_lift, Hsplit, mapM_res_app.
  assert (Hok : ∃ k, mapM f pre = Return k).
  { clear -Hpre. induction Hpre as [|q pre [v Hq] _ [k IH]]; [by exists []|].
    exists (v :: k).
    change (mapM f (q :: pre)) with (y ← f q; k ← mapM f pre; mret (y :: k)).
    by rewrite Hq, IH. }
  destruct Hok as [k ->]. simpl.
  change (mapM f (p :: post)) with (y ← f p; k ← mapM f post; mret (y :: k)).
  by rewrite Hp.
Qed.
End encoder_failure.

Lemma build_predictor_encoder_raises_toy :
  build_predictor toy_training_set toy_fit "HLA-A*02:01"
    (λ q, lift (blosum_encode (∅ : table Z) q)) init_state
  = (Raise (KeyError "L"), init_state).
Proof.
  apply (build_predictor_encoder_raises toy_training_set toy_fit "HLA-A*02:01"
           (blosum_encode (∅ : table Z)) [] (replicate 199 "LLDFEQEMV"%string)
           "LLDFEQEMV").
  - vm_compute. lia.
  - vm_compute. reflexivity.
  - constructor.
  - vm_compute. reflexivity.
Defined.

(** ** Merging the evaluation set with the scores *)

(** A merged row pairs a row of the evaluation set with a score
    recorded for the same peptide, and every such pair occurs: rows
    whose peptide has no score are dropped. *)
Lemma merge_on_peptide_spec (data : list sample) (x : list (string * Qc))
    (d : sample) (q : Qc) :
  (d, q) ∈ merge_on_peptide data x ↔ d ∈ data ∧ (peptide d, q) ∈ x.
Proof.
  unfold merge_on_peptide. rewrite list_elem_of_bind. split.
  - intros (d' & Hin & Hd').
    apply list_elem_of_fmap in Hin as ([p q'] & [= <- <-] & Hr).
    apply list_elem_of_filter in Hr as [Hp Hr]. simpl in Hp. subst p. done.
  - intros [Hd Hx]. exists d. split; [|done].
    apply list_elem_of_fmap. exists (peptide d, q). split; [done|].
    by apply list_elem_of_filter.
Qed.

(** ** Highlighting the best score *)

Lemma series_max_spec (s : list pyfloat) :
  match series_max s with
  | Fin m => Fin m ∈ s ∧ ∀ q, Fin q ∈ s → (q ≤ m)%Qc
  | NaN => ∀ q, Fin q ∉ s
  end.
Proof.
  induction s as [|v s IH]; simpl.
  - intros q Hq. by apply elem_of_nil in Hq.
  - destruct v as [x|]; destruct (series_max s) as [y|].
    + destruct IH as [Hy Hmax]. destruct (decide (x ≤ y)%Qc) as [Hxy|Hxy].
      * split; [by right|]. intros q [[= ->]|Hq]%elem_of_cons; auto.
      * apply Qcnot_le_lt, Qclt_le_weak in Hxy.
        split; [by left|]. intros q [[= ->]|Hq]%elem_of_cons; [done|].
        etrans; [by apply Hmax|done].
    + split; [by left|]. intros q [[= ->]|Hq]%elem_of_cons; [done|].
      by apply IH in Hq.
    + destruct IH as [Hy Hmax]. split; [by right|].
      intros q [?|Hq]%elem_of_cons; [done|auto].
    + intros q [?|Hq]%elem_of_cons; [done|]. by apply IH in Hq.
Qed.

(** X17. [highlight_max] returns one style per entry; an entry gets the
    yellow background exactly when it is a number that no number of the
    series exceeds (ties are all highlighted, [nan] never is), and the
    empty style otherwise. *)
Theorem highlight_max_spec (s : list pyfloat) :
  length (highlight_max s) = length s ∧
  ∀ (i : nat) (v : pyfloat), s !! i = Some v →
    (highlight_max s !! i = Some "background-color: yellow"%string ↔
     ∃ q, v = Fin q ∧ ∀ q', Fin q' ∈ s → (q' ≤ q)%Qc) ∧
    (highlight_max s !! i = Some "background-color: yellow"%string ∨
     highlight_max s !! i = Some ""%string).
Proof.
  unfold highlight_max. split; [by rewrite !length_fmap|].
  intros i v Hi. rewrite !list_lookup_fmap, Hi. simpl.
  pose proof (series_max_spec s) as Hmax.
  split; [|by destruct (feq v (series_max s)); auto].
  destruct v as [x|]; destruct (series_max s) as [m|]; simpl.
  - destruct Hmax as [Hm Hle]. destruct (decide (x = m)) as [->|Hne].
    + rewrite bool_decide_eq_true_2 by done. split; [|done].
      intros _. by exists m.
    + rewrite bool_decide_eq_false_2 by done. split; [done|].
      intros (q & [= <-] & Hq). destruct Hne. apply Qcle_antisym.
      * apply Hle. by eapply list_elem_of_lookup_2.
      * by apply Hq.
  - exfalso. by eapply Hmax, list_elem_of_lookup_2.
  - split; [done|]. by intros (q & ? & _).
  - split; [done|]. by intros (q & ? & _).
Qed.

Lemma highlight_max_spec_toy :
  let s := [Fin (Q2Qc (3 # 4)); NaN; Fin (Q2Qc (9 # 10)); Fin (Q2Qc (9 # 10))] in
  length (highlight_max s) = length s ∧
  ∀ (i : nat) (v : pyfloat), s !! i = Some v →
    (highlight_max s !! i = Some "background-color: yellow"%string ↔
     ∃ q, v = Fin q ∧ ∀ q', Fin q' ∈ s → (q' ≤ q)%Qc) ∧
    (highlight_max s !! i = Some "background-color: yellow"%string ∨
     highlight_max s !! i = Some ""%string).
Proof. intros s. apply (highlight_max_spec s). Defined.

Example highlight_max_ties :
  highlight_max [Fin (Q2Qc (3 # 4)); NaN; Fin (Q2Qc (9 # 10)); Fin (Q2Qc (9 # 10))]
  = [""; ""; "background-color: yellow"; "background-color: yellow"]%string.
Proof. vm_compute. reflexivity. Qed.

(** ** The linearised scale *)

Lemma log50k_of_ic50_lt (x y : R) :
  (0 < x)%R → (0 < y)%R →
  ((x < y)%R ↔ (log50k_of_ic50 y < log50k_of_ic50 x)%R).
Proof.
  intros Hx Hy. pose proof ln_50000_pos as HL.
  assert (Hinv : (0 < / ln 50000)%R) by (by apply Rinv_0_lt_compat).
  unfold log50k_of_ic50, Rdiv. split.
  - intros Hxy. apply (ln_increasing x y Hx) in Hxy.
    apply (Rmult_lt_compat_r (/ ln 50000)) in Hxy; [lra|done].
  - intros Hlog. apply ln_lt_inv; [done..|].
    apply (Rmult_lt_reg_r (/ ln 50000)); [done|lra].
Qed.

Lemma log50k_of_ic50_50000 : log50k_of_ic50 50000 = 0%R.
Proof. pose proof ln_50000_pos. unfold log50k_of_ic50. field. lra. Qed.

Lemma log50k_of_ic50_1 : log50k_of_ic50 1 = 1%R.
Proof. pose proof ln_50000_pos. unfold log50k_of_ic50. rewrite ln_1. field. lra. Qed.

(** X18. The linearised value decreases strictly as IC50 grows, and it
    lies between 0 and 1 for IC50 between 1 and 50000. *)
Theorem log50k_of_ic50_decreasing (x y : R) :
  ((0 < x)%R → (0 < y)%R →
   ((x < y)%R ↔ (log50k_of_ic50 y < log50k_of_ic50 x)%R)) ∧
  ((1 <= x <= 50000)%R → (0 <= log50k_of_ic50 x <= 1)%R).
Proof.
  split; [apply log50k_of_ic50_lt|].
  intros [H1 H2].
  pose proof log50k_of_ic50_50000 as E0. pose proof log50k_of_ic50_1 as E1.
  split.
  - destruct H2 as [H2 | ->]; [|lra].
    apply Rlt_le. rewrite <- E0.
    apply (proj1 (log50k_of_ic50_lt x 50000 ltac:(lra) ltac:(lra))). lra.
  - destruct H1 as [H1 | <-]; [|lra].
    apply Rlt_le. rewrite <- E1.
    apply (proj1 (log50k_of_ic50_lt 1 x ltac:(lra) ltac:(lra))). lra.
Qed.

Lemma log50k_of_ic50_decreasing_500_5000 :
  ((500 < 5000)%R ↔ (log50k_of_ic50 5000 < log50k_of_ic50 500)%R) ∧
  (0 <= log50k_of_ic50 500 <= 1)%R.
Proof.
  split.
  - apply (log50k_of_ic50_decreasing 500 5000); lra.
  - apply (log50k_of_ic50_decreasing 500 5000); lra.
Defined.

Lemma ln_pow_lt (a b : Z) (n m : nat) :
  (0 < a)%Z → (0 < b)%Z → (a ^ Z.of_nat n < b ^ Z.of_nat m)%Z →
  (INR n * ln (IZR a) < INR m * ln (IZR b))%R.
Proof.
  intros Ha Hb Hlt.
  assert (HaR : (0 < IZR a)%R) by (by apply IZR_lt).
  assert (HbR : (0 < IZR b)%R) by (by apply IZR_lt).
  rewrite <- !ln_pow by done. apply ln_increasing.
  - by apply pow_lt.
  - rewrite !pow_IZR. by apply IZR_lt.
Qed.

Lemma log50k_of_ic50_500 : log50k_of_ic50 500 = (ln 100 / ln 50000)%R.
Proof.
  pose proof ln_50000_pos as HL. unfold log50k_of_ic50.
  replace 500%R with (50000 * / 100)%R by lra.
  rewrite ln_mult, ln_Rinv by lra. field. lra.
Qed.

(** X19. On the linearised scale the 500 nM threshold is
    [ln 100 / ln 50000], which lies strictly between 0.425 and 0.426:
    the cutoff [.426] of [test_predictor] is that threshold rounded up
    to three decimals, less than 0.001 above it. *)
Theorem test_predictor_cutoff_500nM :
  (0.425 < log50k_of_ic50 500)%R ∧
  (log50k_of_ic50 500 < test_predictor_cutoff)%R ∧
  (test_predictor_cutoff - log50k_of_ic50 500 < 0.001)%R.
Proof.
  pose proof ln_50000_pos as HL.
  assert (Hlo : (INR 17 * ln 50000 < INR 40 * ln 100)%R).
  { apply (ln_pow_lt 50000 100 17 40); [lia..|]. by vm_compute. }
  assert (Hhi : (INR 500 * ln 100 < INR 213 * ln 50000)%R).
  { apply (ln_pow_lt 100 50000 500 213); [lia..|]. by vm_compute. }
  rewrite (INR_IZR_INZ 17), (INR_IZR_INZ 40) in Hlo.
  rewrite (INR_IZR_INZ 500), (INR_IZR_INZ 213) in Hhi.
  change (Z.of_nat 17) with 17%Z in Hlo. change (Z.of_nat 40) with 40%Z in Hlo.
  change (Z.of_nat 500) with 500%Z in Hhi. change (Z.of_nat 213) with 213%Z in Hhi.
  rewrite log50k_of_ic50_500. unfold test_predictor_cutoff.
  assert (H1 : (0.425 < ln 100 / ln 50000)%R).
  { apply (Rmult_lt_reg_r (ln 50000)); [done|].
    replace (ln 100 / ln 50000 * ln 50000)%R with (ln 100) by (field; lra). lra. }
  assert (H2 : (ln 100 / ln 50000 < 0.426)%R).
  { apply (Rmult_lt_reg_r (ln 50000)); [done|].
    replace (ln 100 / ln 50000 * ln 50000)%R with (ln 100) by (field; lra). lra. }
  lra.
Qed.
